(** * mbtiles: a read-only accessor for MBTiles containers

    A shallow embedding of [mbtiles.go] and the properties of its
    operations: [FindMBtiles], [Open], [Close], [ReadTile], [ReadMetadata],
    the format detection at open time and [parseFloats].

    The Go packages the program calls ([os], [path/filepath], [time],
    [strings], [strconv], [database/sql] on top of SQLite) are modelled in
    the modules [go_time], [go_filepath], [go_strings], [go_strconv] and
    [go_sql]; [strconv.ParseFloat] and [json.Unmarshal] are parameters of
    the development. *)

From Stdlib Require Import ZArith String Ascii List Floats.PrimFloat.
From Stdlib Require Uint63.
From stdpp Require Import gmap strings list.

Local Open Scope string_scope.
Local Open Scope Z_scope.

(** ** Go values *)

(** A Go [[]byte]: [None] is the nil slice, [Some []] an empty one. *)
Definition bytes := list Byte.byte.
Definition slice := option bytes.

(** What a Go call does: it returns or it panics. *)
Inductive outcome (A : Type) : Type :=
| Returns (a : A)
| Panics (why : string).
Arguments Returns {A} a.
Arguments Panics {A} why.

Definition nil_dereference : string := "invalid memory address or nil pointer dereference".
Definition nil_map_write : string := "assignment to entry in nil map".

(** ** package time *)

Module go_time.

(** An instant, in nanoseconds since the zero time; a duration in nanoseconds. *)
Definition Time := Z.
Definition Duration := Z.
Definition Second : Duration := 1000000000.

(** [t.Round(d)]: the nearest multiple of [d], halfway values rounded up. *)
Definition Round (t : Time) (d : Duration) : Time :=
  if d <=? 0 then t
  else let r := t mod d in
       if r + r <? d then t - r else t + (d - r).

(** [t.Truncate(d)]: [t] rounded down to a multiple of [d]. *)
Definition Truncate (t : Time) (d : Duration) : Time :=
  if d <=? 0 then t else t - t mod d.

End go_time.

(** ** packages os and path/filepath *)

Inductive os_error :=
| ErrNotExist
| ErrPermission
| ErrIO (msg : string).

(** [errors.Is(err, os.ErrNotExist)] *)
Definition is_not_exist (e : os_error) : bool :=
  match e with ErrNotExist => true | _ => false end.

Record FileInfo := { ModTime : go_time.Time; IsDir : bool }.

Module go_filepath.

Definition IsPathSeparator (c : ascii) : bool := Ascii.eqb c "/".

(** The loop of [filepath.Ext], on the bytes of the path read from its
    end: [suffix] holds the bytes already passed, in path order. *)
Fixpoint ext_scan (backwards suffix : list ascii) : list ascii :=
  match backwards with
  | [] => []
  | c :: before =>
      if IsPathSeparator c then []
      else if Ascii.eqb c "." then c :: suffix
      else ext_scan before (c :: suffix)
  end.

(** [filepath.Ext(path)]: the suffix of the last element of [path] that
    starts at its final dot, empty when there is none. *)
Definition Ext (path : string) : string :=
  string_of_list_ascii (ext_scan (rev (list_ascii_of_string path)) []).

(** [filepath.Walk]: [fn] is called on each visit, in order, and the
    first error it returns ends the walk and is the result. *)
Fixpoint Walk {S E} (visits : list (string * option os_error))
    (fn : string -> option os_error -> S -> S * option E) (s : S) : S * option E :=
  match visits with
  | [] => (s, None)
  | (p, err) :: rest =>
      match fn p err s with
      | (s', Some e) => (s', Some e)
      | (s', None) => Walk rest fn s'
      end
  end.

End go_filepath.

(** ** package strings *)

Module go_strings.

(** [strings.Split(s, sep)] for a separator of one byte. *)
Fixpoint Split (s : string) (sep : ascii) : list string :=
  match s with
  | EmptyString => [EmptyString]
  | String c rest =>
      if Ascii.eqb c sep then EmptyString :: Split rest sep
      else match Split rest sep with
           | field :: fields => String c field :: fields
           | [] => [String c EmptyString]
           end
  end.

Definition of_codes (l : list nat) : string :=
  string_of_list_ascii (map ascii_of_nat l).

(** The UTF-8 encodings of the runes for which [unicode.IsSpace] holds:
    tab, line feed, vertical tab, form feed, carriage return, space,
    U+0085, U+00A0, U+1680, U+2000 to U+200A, U+2028, U+2029, U+202F,
    U+205F and U+3000. *)
Definition white_space_codes : list (list nat) :=
  ([[9]; [10]; [11]; [12]; [13]; [32]; [194; 133]; [194; 160]; [225; 154; 128]]
   ++ map (fun k => [226; 128; k]) (seq 128 11)
   ++ [[226; 128; 168]; [226; 128; 169]; [226; 128; 175]; [226; 129; 159];
       [227; 128; 128]])%nat%list.

Definition white_space : list string := map of_codes white_space_codes.

Fixpoint strip_prefix (p s : string) : option string :=
  match p, s with
  | EmptyString, _ => Some s
  | String a p', String b s' => if Ascii.eqb a b then strip_prefix p' s' else None
  | String _ _, EmptyString => None
  end.

(** The rest of [s] after one leading rune out of [runes], if it has one. *)
Fixpoint strip_one (runes : list string) (s : string) : option string :=
  match runes with
  | [] => None
  | r :: runes' =>
      match strip_prefix r s with
      | Some rest => Some rest
      | None => strip_one runes' s
      end
  end.

Fixpoint trim_left (fuel : nat) (runes : list string) (s : string) : string :=
  match fuel with
  | O => s
  | S fuel' =>
      match strip_one runes s with
      | Some rest => trim_left fuel' runes rest
      | None => s
      end
  end.

Definition TrimLeftSpace (s : string) : string :=
  trim_left (String.length s) white_space s.

Definition TrimRightSpace (s : string) : string :=
  String.rev (trim_left (String.length s) (map String.rev white_space) (String.rev s)).

(** [strings.TrimSpace(s)]: [s] without its leading and trailing white space. *)
Definition TrimSpace (s : string) : string := TrimRightSpace (TrimLeftSpace s).

End go_strings.

(** ** package strconv *)

Inductive NumError := ErrSyntax | ErrRange.

Module go_strconv.

Definition digit (c : ascii) : option Z :=
  let n := Z.of_nat (nat_of_ascii c) in
  if (48 <=? n) && (n <=? 57) then Some (n - 48) else None.

(** The value of a string of decimal digits read after [acc]. *)
Fixpoint digits (s : string) (acc : Z) : option Z :=
  match s with
  | EmptyString => Some acc
  | String c rest =>
      match digit c with
      | Some d => digits rest (10 * acc + d)
      | None => None
      end
  end.

Definition unsigned (s : string) : option Z :=
  match s with
  | EmptyString => None
  | _ => digits s 0
  end.

Definition int_min : Z := - 2 ^ 63.
Definition int_max : Z := 2 ^ 63 - 1.

(** [strconv.Atoi(s)] where [int] has 64 bits: an optional sign and at
    least one decimal digit; a value out of range is clamped and
    reported. *)
Definition Atoi (s : string) : Z * option NumError :=
  let '(neg, body) :=
    match s with
    | String "-"%char rest => (true, rest)
    | String "+"%char rest => (false, rest)
    | _ => (false, s)
    end in
  match unsigned body with
  | None => (0, Some ErrSyntax)
  | Some n =>
      if neg then (if int_min <=? - n then (- n, None) else (int_min, Some ErrRange))
      else (if n <=? int_max then (n, None) else (int_max, Some ErrRange))
  end.

End go_strconv.

(** ** Errors *)

(** The errors of [database/sql] and of the SQLite driver under it. *)
Inductive sql_error :=
| ErrNoRows                      (* sql.ErrNoRows *)
| ErrStmtClosed                  (* "sql: statement is closed" *)
| ErrDBClosed                    (* "sql: database is closed" *)
| ErrNoSuchTable (name : string) (* "no such table: ..." *)
| ErrScanArity                   (* "sql: expected n destination arguments in Scan, not m" *)
| ErrScan (column : nat)         (* "sql: Scan error on column index ..." *)
| ErrDriver (msg : string).      (* any other failure of the engine *)

(** The [error] values this package returns. *)
Inductive error :=
| PathDoesNotExist (path : string) (* "path does not exist: %q" *)
| IncompleteTileset  (* "refusing to open mbtiles file with associated -journal file (incomplete tileset)" *)
| ClosedDatabase     (* "cannot read tile from closed mbtiles database" *)
| MissingTables      (* "missing one or more required tables: tiles, metadata" *)
| BadMetadataItem (key : string) (cause : error) (* "cannot read metadata item %s: %v" *)
| BadJSON (cause : error)                        (* "unable to parse JSON metadata item: %v" *)
| BadFloats (str : string) (cause : error)       (* "could not parse %q to floats: %v" *)
| OsError (e : os_error)
| SqlError (e : sql_error)
| AtoiError (num : string) (e : NumError)        (* the *strconv.NumError of Atoi *)
| LibraryError (msg : string).                   (* an error made by another package *)

(** ** package database/sql over SQLite *)

Module go_sql.

Inductive ObjType := table | index | view | trigger.

(** A row of [sqlite_master]. *)
Record SchemaEntry := { obj_type : ObjType; obj_name : string }.

(** A row of [tiles]; a NULL [tile_data] is [None], a blob of length zero
    is [Some []]. *)
Record TileRow := {
  zoom_level : Z;
  tile_column : Z;
  tile_row : Z;
  tile_data : slice
}.

(** [Scan] of a [tile_data] into a byte slice, with the SQLite driver that
    the program loads: NULL and a blob of length zero both give the nil
    slice, any other blob gives its bytes. *)
Definition scan_bytes (stored : slice) : slice :=
  match stored with
  | Some (b :: rest) => Some (b :: rest)
  | Some [] | None => None
  end.

(** A cell that is scanned into a Go string: SQL NULL is [None]. *)
Definition cell := option string.

(** A row of [metadata]: its name and value columns, and the columns
    that a table wider than name and value has after them. *)
Record MetaRow := { meta_name : cell; meta_value : cell; meta_more : list cell }.

(** The statements the program runs. *)
Inductive Query :=
| QTableCount   (* SELECT count( * ) FROM sqlite_master WHERE name in ('tiles', 'metadata') *)
| QFirstTile    (* select tile_data from tiles limit 1 *)
| QMetadata     (* select * from metadata where value is not '' *)
| QZoomRange    (* select min(zoom_level), max(zoom_level) from tiles *)
| QPrepareTile  (* preparing the statement of QTile *)
| QTile (z x y : Z).
    (* select tile_data from tiles where zoom_level = ? and tile_column = ? and tile_row = ? *)

(** The content of a container file as the engine sees it; [fault] is
    the failure, if any, with which the engine answers a statement
    whatever the content (I/O error, corrupt page, busy file). *)
Record Database := {
  sqlite_master : list SchemaEntry;
  tiles : list TileRow;
  metadata : list MetaRow;
  fault : Query -> option sql_error
}.

Definition is_relation (name : string) (e : SchemaEntry) : bool :=
  match obj_type e with
  | table | view => String.eqb (obj_name e) name
  | index | trigger => false
  end.

(** A table or view of that name exists. *)
Definition has_relation (d : Database) (name : string) : bool :=
  existsb (is_relation name) (sqlite_master d).

Definition answer {A} (d : Database) (q : Query) (from : option string)
    (k : A + sql_error) : A + sql_error :=
  match fault d q with
  | Some e => inr e
  | None =>
      match from with
      | Some name => if has_relation d name then k else inr (ErrNoSuchTable name)
      | None => k
      end
  end.

(** QTableCount, scanned into an int. *)
Definition table_count (d : Database) : Z + sql_error :=
  answer d QTableCount None
    (inl (Z.of_nat (length
       (filter (fun e => obj_name e ∈ ["tiles"; "metadata"]) (sqlite_master d))))).

(** QFirstTile, scanned into a byte slice. *)
Definition first_tile (d : Database) : slice + sql_error :=
  answer d QFirstTile (Some "tiles")
    match tiles d with
    | [] => inr ErrNoRows
    | r :: _ => inl (scan_bytes (tile_data r))
    end.

Definition at_coordinate (z x y : Z) (r : TileRow) : bool :=
  (zoom_level r =? z) && (tile_column r =? x) && (tile_row r =? y).

(** QTile, its first row scanned into a byte slice. *)
Definition tile_at (d : Database) (z x y : Z) : slice + sql_error :=
  answer d (QTile z x y) (Some "tiles")
    match List.find (at_coordinate z x y) (tiles d) with
    | None => inr ErrNoRows
    | Some r => inl (scan_bytes (tile_data r))
    end.

(** QZoomRange, scanned into two ints: over an empty table both
    aggregates are NULL, which no int takes. *)
Definition zoom_range (d : Database) : (Z * Z) + sql_error :=
  answer d QZoomRange (Some "tiles")
    match map zoom_level (tiles d) with
    | [] => inr (ErrScan 0)
    | z :: zs => inl (foldr Z.min z zs, foldr Z.max z zs)
    end.

Definition row_cells (r : MetaRow) : list cell :=
  meta_name r :: meta_value r :: meta_more r.

(** QMetadata: the rows that [rows.Next] steps through. *)
Definition metadata_rows (d : Database) : list (list cell) + sql_error :=
  answer d QMetadata (Some "metadata")
    (inl (map row_cells (filter (fun r => meta_value r ≠ Some "") (metadata d)))).

Definition prepare_tile (d : Database) : unit + sql_error :=
  answer d QPrepareTile (Some "tiles") (inl tt).

(** [rows.Scan(&key, &value)]: the destinations are assigned in column
    order and the scan stops at the first cell it cannot convert; with
    another number of columns than two nothing is assigned. *)
Definition Scan2 (cells : list cell) (key value : string)
    : (string * string) * option sql_error :=
  match cells with
  | [Some k; Some v] => ((k, v), None)
  | [Some k; None] => ((k, value), Some (ErrScan 1))
  | [None; _] => ((key, value), Some (ErrScan 0))
  | _ => ((key, value), Some ErrScanArity)
  end.

(** The objects behind [*sql.DB] and [*sql.Stmt]; a pointer is an index
    into the heap. *)
Definition DB := nat.
Definition Stmt := nat.

Record pool_state := { pool_path : string; pool_closed : bool }.
Record stmt_state := { stmt_pool : DB; stmt_closed : bool }.
Record Heap := { pools : list pool_state; stmts : list stmt_state }.

Definition empty_heap : Heap := {| pools := []; stmts := [] |}.

(** [db.Close()]: marks the pool closed; on a closed pool it does nothing. *)
Definition DB_Close (p : DB) (h : Heap) : Heap :=
  {| pools := alter (fun s => {| pool_path := pool_path s; pool_closed := true |}) p (pools h);
     stmts := stmts h |}.

(** [stmt.Close()]: marks the statement closed; idem. *)
Definition Stmt_Close (s : Stmt) (h : Heap) : Heap :=
  {| pools := pools h;
     stmts := alter (fun st => {| stmt_pool := stmt_pool st; stmt_closed := true |}) s (stmts h) |}.

Section engine.
(** The container behind each path. *)
Variable disk : string -> Database.

(** A statement run on a pool: refused once the pool is closed. *)
Definition on_pool {A} (h : Heap) (p : DB) (run : Database -> A + sql_error)
    : A + sql_error :=
  match pools h !! p with
  | Some s => if pool_closed s then inr ErrDBClosed else run (disk (pool_path s))
  | None => inr ErrDBClosed
  end.

(** A prepared statement run: refused once the statement is closed,
    or the pool it was prepared on. *)
Definition on_stmt {A} (h : Heap) (s : Stmt) (run : Database -> A + sql_error)
    : A + sql_error :=
  match stmts h !! s with
  | Some st => if stmt_closed st then inr ErrStmtClosed else on_pool h (stmt_pool st) run
  | None => inr ErrStmtClosed
  end.

(** [con.Prepare(...)] of the point lookup. *)
Definition Prepare (h : Heap) (p : DB) : (Stmt + sql_error) * Heap :=
  match on_pool h p prepare_tile with
  | inr e => (inr e, h)
  | inl _ =>
      (inl (length (stmts h)),
       {| pools := pools h;
          stmts := stmts h ++ [{| stmt_pool := p; stmt_closed := false |}] |})
  end.
End engine.

(** [sql.Open("sqlite", path)]: a new pool for the path, unless the driver refuses. *)
Definition Open (refuses : string -> option error) (path : string) (h : Heap)
    : (DB + error) * Heap :=
  match refuses path with
  | Some e => (inr e, h)
  | None =>
      (inl (length (pools h)),
       {| pools := pools h ++ [{| pool_path := path; pool_closed := false |}];
          stmts := stmts h |})
  end.

End go_sql.

(** The operating system and the storage engine around the program. *)
Record Env := {
  (** [os.Stat] *)
  stat : string -> FileInfo + os_error;
  (** the calls [filepath.Walk] makes to its function as long as that
      function returns nil: the path, and the error of reading it if any *)
  walk : string -> list (string * option os_error);
  (** whether [sql.Open] fails on the path *)
  driver_refuses : string -> option error;
  (** the container stored at the path *)
  disk : string -> go_sql.Database
}.

(** ** Tile formats *)

(** Modelled from the spec: the enumeration [TileFormat] is declared in a
    file of the repository that is not among the sources. The spec lists
    raster PNG, JPEG and WEBP, vector protobuf and the UNKNOWN sentinel;
    [mbtiles.go] names [UNKNOWN], [GZIP] and [PBF]. *)
Inductive TileFormat := UNKNOWN | GZIP | PNG | JPG | PBF | WEBP.

Module FormatSniffer.

Import Byte.

Fixpoint has_prefix (p data : bytes) : bool :=
  match p, data with
  | [], _ => true
  | a :: p', b :: data' => Byte.eqb a b && has_prefix p' data'
  | _ :: _, [] => false
  end.

Definition gzip_magic : bytes := [x1f; x8b].

(** Modelled from the spec: the table of magic signatures, in priority
    order. The spec names the formats and says that the signatures are
    mutually exclusive prefixes; the bytes are the published magic
    numbers of gzip, PNG, JPEG and RIFF. *)
Definition signatures : list (TileFormat * bytes) :=
  [ (GZIP, gzip_magic);
    (PNG, [x89; x50; x4e; x47; x0d; x0a; x1a; x0a]);
    (JPG, [xff; xd8; xff]);
    (WEBP, [x52; x49; x46; x46]) ].

Fixpoint first_match (table : list (TileFormat * bytes)) (data : bytes)
    : option TileFormat :=
  match table with
  | [] => None
  | (f, magic) :: table' =>
      if has_prefix magic data then Some f else first_match table' data
  end.

Definition contents (data : slice) : bytes :=
  match data with Some b => b | None => [] end.

(** Modelled from the spec: [detectTileFormat] is defined in a file that
    is not among the sources. The leading bytes are compared with the
    signatures in priority order and the first match wins; no match is
    a failure, not a default. *)
Definition detectTileFormat (data : slice) : TileFormat * option error :=
  match first_match signatures (contents data) with
  | Some f => (f, None)
  | None => (UNKNOWN, Some (LibraryError "could not detect tile format"))
  end.

Definition big_endian (b : bytes) : Z :=
  fold_left (fun acc x => 256 * acc + Z.of_N (Byte.to_N x)) b 0.

(** Modelled from the spec: [detectTileSize] is defined in a file that is
    not among the sources. A format with a size field at a fixed offset
    reports its big-endian 32-bit width, here the width of the PNG
    header at offset 16, and a header cut before the field is a
    failure; a format without such a field reports 0. The spec leaves
    the rule of the other raster formats open, and nothing below
    depends on it. *)
Definition detectTileSize (f : TileFormat) (data : slice) : Z * option error :=
  match f with
  | PNG =>
      let field := firstn 4 (skipn 16 (contents data)) in
      if (length field =? 4)%nat then (big_endian field, None)
      else (0, Some (LibraryError "truncated header"))
  | _ => (0, None)
  end.

End FormatSniffer.

(** ** The handle and the metadata mapping *)

(** The struct [MBtiles]; a [*MBtiles] is an [option MBtiles], nil being
    [None]. No method writes a field once [Open] has returned. *)
Record MBtiles := {
  filename : string;
  pool : option go_sql.DB;
  tileStmt : option go_sql.Stmt;
  format : TileFormat;
  timestamp : go_time.Time;
  tilesize : Z
}.

(** Assignments to the fields that [Open] sets after the struct is made. *)
Definition set_format (db : MBtiles) (f : TileFormat) : MBtiles :=
  {| filename := filename db; pool := pool db; tileStmt := tileStmt db;
     format := f; timestamp := timestamp db; tilesize := tilesize db |}.

Definition set_tilesize (db : MBtiles) (n : Z) : MBtiles :=
  {| filename := filename db; pool := pool db; tileStmt := tileStmt db;
     format := format db; timestamp := timestamp db; tilesize := n |}.

Definition set_tileStmt (db : MBtiles) (s : option go_sql.Stmt) : MBtiles :=
  {| filename := filename db; pool := pool db; tileStmt := s;
     format := format db; timestamp := timestamp db; tilesize := tilesize db |}.

(** The dynamic values an [interface{}] of the metadata map holds: an int,
    a []float64 or a string from the table, and what [encoding/json]
    decodes into an [interface{}]. *)
Unset Elimination Schemes.
Inductive value :=
| VNil
| VBool (b : bool)
| VInt (n : Z)
| VFloat64 (f : float)
| VString (s : string)
| VFloat64s (l : list float)
| VSlice (l : list value)
| VMap (m : list (string * value)).
Set Elimination Schemes.

(** A [map[string]interface{}]: [None] is the nil map, which can be read
    but not written. *)
Definition gomap := option (gmap string value).

Definition has_key (metadata : gomap) (key : string) : bool :=
  match metadata with
  | Some m => bool_decide (is_Some (m !! key))
  | None => false
  end.

(** [metadata[key] = v] *)
Definition store (metadata : gomap) (key : string) (v : value) : outcome gomap :=
  match metadata with
  | Some m => Returns (Some (<[key := v]> m))
  | None => Panics nil_map_write
  end.

(** ** The program *)

(** [FindMBtiles]: the paths under [path] with the extension .mbtiles,
    without those that have a -journal file next to them. *)
Definition FindMBtiles (env : Env) (path : string) : list string * option error :=
  let fn (p : string) (err : option os_error) (filenames : list string) :=
    match err with
    | Some e => (filenames, Some (OsError e))
    | None =>
        match stat env (p +:+ "-journal") with
        | inl _ => (filenames, None)
        | inr _ =>
            if String.eqb (go_filepath.Ext p) ".mbtiles"
            then ((filenames ++ [p])%list, None)
            else (filenames, None)
        end
    end in
  match go_filepath.Walk (walk env path) fn [] with
  | (_, Some e) => ([], Some e)
  | (filenames, None) => (filenames, None)
  end.

(** [getConnection] hands out the pool of the handle with a nil error
    ([closeConnection] does nothing). *)
Definition getConnection (pool : go_sql.DB) : go_sql.DB * option error := (pool, None).

(** [validateRequiredTables] *)
Definition validateRequiredTables (env : Env) (h : go_sql.Heap) (con : go_sql.DB)
    : option error :=
  match go_sql.on_pool (disk env) h con go_sql.table_count with
  | inr e => Some (SqlError e)
  | inl tableCount => if tableCount <? 2 then Some MissingTables else None
  end.

(** [Close] *)
Definition Close (db : option MBtiles) (h : go_sql.Heap) : outcome go_sql.Heap :=
  match db with
  | None => Panics nil_dereference
  | Some d =>
      let h := match tileStmt d with Some s => go_sql.Stmt_Close s h | None => h end in
      let h := match pool d with Some p => go_sql.DB_Close p h | None => h end in
      Returns h
  end.

(** [ReadTile]: the slice behind [data] after the call, and the error. *)
Definition ReadTile (env : Env) (h : go_sql.Heap) (db : option MBtiles) (z x y : Z)
    (data : slice) : slice * option error :=
  match db with
  | None => (data, Some ClosedDatabase)
  | Some d =>
      match tileStmt d with
      | None => (data, Some ClosedDatabase)
      | Some s =>
          match go_sql.on_stmt (disk env) h s (fun c => go_sql.tile_at c z x y) with
          | inl payload => (payload, None)
          | inr ErrNoRows => (None, None)
          | inr e => (data, Some (SqlError e))
          end
      end
  end.

Definition GetFilename (db : MBtiles) : string := filename db.
Definition GetTileFormat (db : MBtiles) : TileFormat := format db.
Definition GetTileSize (db : MBtiles) : Z := tilesize db.
Definition GetTimestamp (db : MBtiles) : go_time.Time := timestamp db.

Section mbtiles.

(** The two functions of the format sniffer, which are defined in a
    file that is not among the sources, and the two decoders of the Go
    library whose results the metadata map stores. *)
Variable detectTileFormat : slice -> TileFormat * option error.
Variable detectTileSize : TileFormat -> slice -> Z * option error.
Variable ParseFloat : string -> float * option error.
Variable Unmarshal : string -> gomap -> gomap * option error.

(** [getTileFormat] *)
Definition getTileFormat (env : Env) (h : go_sql.Heap) (con : go_sql.DB)
    : TileFormat * option error :=
  match go_sql.on_pool (disk env) h con go_sql.first_tile with
  | inr e => (UNKNOWN, Some (SqlError e))
  | inl magicWord =>
      match detectTileFormat magicWord with
      | (_, Some e) => (UNKNOWN, Some e)
      | (format, None) =>
          let format := match format with GZIP => PBF | _ => format end in
          (format, None)
      end
  end.

(** [getTileFormatAndSize] *)
Definition getTileFormatAndSize (env : Env) (h : go_sql.Heap) (con : go_sql.DB)
    : TileFormat * Z * option error :=
  let tilesize := 0 in
  match go_sql.on_pool (disk env) h con go_sql.first_tile with
  | inr e => (UNKNOWN, tilesize, Some (SqlError e))
  | inl tileData =>
      match detectTileFormat tileData with
      | (_, Some e) => (UNKNOWN, tilesize, Some e)
      | (format, None) =>
          let format := match format with GZIP => PBF | _ => format end in
          match detectTileSize format tileData with
          | (tilesize, Some e) => (format, tilesize, Some e)
          | (tilesize, None) => (format, tilesize, None)
          end
      end
  end.

(** [Open] *)
Definition Open (env : Env) (path : string) (h : go_sql.Heap)
    : (option MBtiles * option error) * go_sql.Heap :=
  match stat env path with
  | inr e =>
      if is_not_exist e then ((None, Some (PathDoesNotExist path)), h)
      else ((None, Some (OsError e)), h)
  | inl info =>
      match stat env (path +:+ "-journal") with
      | inl _ => ((None, Some IncompleteTileset), h)
      | inr _ =>
          match go_sql.Open (driver_refuses env) path h with
          | (inr e, h) => ((None, Some e), h)
          | (inl pool, h) =>
              let db := {| filename := path;
                           pool := Some pool;
                           tileStmt := None;
                           format := UNKNOWN;
                           timestamp := go_time.Round (ModTime info) go_time.Second;
                           tilesize := 0 |} in
              match getConnection pool with
              | (_, Some e) => ((None, Some e), h)
              | (con, None) =>
                  match validateRequiredTables env h con with
                  | Some e => ((None, Some e), h)
                  | None =>
                      match getTileFormatAndSize env h con with
                      | (_, _, Some e) => ((None, Some e), h)
                      | (format, tilesize, None) =>
                          let db := set_format db format in
                          let db := set_tilesize db tilesize in
                          match go_sql.Prepare (disk env) h con with
                          | (inr e, h) => ((None, Some (SqlError e)), h)
                          | (inl stmt, h) =>
                              let db := set_tileStmt db (Some stmt) in
                              match go_sql.Prepare (disk env) h con with
                              | (inr e, h) => ((None, Some (SqlError e)), h)
                              | (inl stmt, h) =>
                                  let db := set_tileStmt db (Some stmt) in
                                  ((Some db, None), h)
                              end
                          end
                      end
                  end
              end
          end
      end
  end.

(** The loop of [parseFloats] over the fields that are left. *)
Fixpoint parseFloats_range (str : string) (split : list string) (out : list float)
    : list float * option error :=
  match split with
  | [] => (out, None)
  | v :: split' =>
      match ParseFloat (go_strings.TrimSpace v) with
      | (_, Some e) => (out, Some (BadFloats str e))
      | (value, None) => parseFloats_range str split' (out ++ [value])%list
      end
  end.

(** [parseFloats] *)
Definition parseFloats (str : string) : list float * option error :=
  parseFloats_range str (go_strings.Split str ",") [].

(** The switch on [key] in the loop of [ReadMetadata]: the map after
    it, or the error with which [ReadMetadata] returns. *)
Definition switch_key (key value : string) (metadata : gomap) : outcome (gomap + error) :=
  if bool_decide (key ∈ ["maxzoom"; "minzoom"]) then
    let '(n, err) := go_strconv.Atoi value in
    match store metadata key (VInt n) with
    | Panics why => Panics why
    | Returns metadata =>
        match err with
        | Some e => Returns (inr (BadMetadataItem key (AtoiError value e)))
        | None => Returns (inl metadata)
        end
    end
  else if bool_decide (key ∈ ["bounds"; "center"]) then
    let '(out, err) := parseFloats value in
    match store metadata key (VFloat64s out) with
    | Panics why => Panics why
    | Returns metadata =>
        match err with
        | Some e => Returns (inr (BadMetadataItem key e))
        | None => Returns (inl metadata)
        end
    end
  else if String.eqb key "json" then
    match Unmarshal value metadata with
    | (_, Some e) => Returns (inr (BadJSON e))
    | (metadata, None) => Returns (inl metadata)
    end
  else
    match store metadata key (VString value) with
    | Panics why => Panics why
    | Returns metadata => Returns (inl metadata)
    end.

(** The loop [for rows.Next() { rows.Scan(&key, &value); switch ... }]:
    the result of [Scan] is dropped. *)
Fixpoint scan_rows (rows : list (list go_sql.cell)) (key value : string)
    (metadata : gomap) : outcome (gomap + error) :=
  match rows with
  | [] => Returns (inl metadata)
  | r :: rows' =>
      let '((key, value), _) := go_sql.Scan2 r key value in
      match switch_key key value metadata with
      | Returns (inl metadata) => scan_rows rows' key value metadata
      | stop => stop
      end
  end.

(** The last part of [ReadMetadata]: missing zoom levels are read off
    the tiles. *)
Definition supplement (env : Env) (h : go_sql.Heap) (con : go_sql.DB)
    (metadata : gomap) : outcome (gomap * option error) :=
  let hasMinZoom := has_key metadata "minzoom" in
  let hasMaxZoom := has_key metadata "maxzoom" in
  if negb (hasMinZoom && hasMaxZoom) then
    match go_sql.on_pool (disk env) h con go_sql.zoom_range with
    | inr _ => Returns (metadata, None)
    | inl (minZoom, maxZoom) =>
        match store metadata "minzoom" (VInt minZoom) with
        | Panics why => Panics why
        | Returns metadata =>
            match store metadata "maxzoom" (VInt maxZoom) with
            | Panics why => Panics why
            | Returns metadata => Returns (metadata, None)
            end
        end
    end
  else Returns (metadata, None).

(** [ReadMetadata] *)
Definition ReadMetadata (env : Env) (h : go_sql.Heap) (db : option MBtiles)
    : outcome (gomap * option error) :=
  match db with
  | None => Returns (None, Some ClosedDatabase)
  | Some d =>
      match pool d with
      | None => Returns (None, Some ClosedDatabase)
      | Some p =>
          match getConnection p with
          | (_, Some e) => Returns (None, Some e)
          | (con, None) =>
              match go_sql.on_pool (disk env) h con go_sql.metadata_rows with
              | inr e => Returns (None, Some (SqlError e))
              | inl rows =>
                  match scan_rows rows "" "" (Some ∅) with
                  | Panics why => Panics why
                  | Returns (inr e) => Returns (None, Some e)
                  | Returns (inl metadata) => supplement env h con metadata
                  end
              end
          end
      end
  end.

End mbtiles.

(** ** Instances of the Go decoders and sample containers *)

Module Sample.

Import go_sql Byte.

(** [strconv.ParseFloat(s, 64)] on the plain decimal literals with a
    mantissa below 2^53 and at most 18 fraction digits, where the
    quotient of the two exactly represented integers is the nearest
    float64; other inputs are outside this instance and reported as
    errors. *)
Definition ParseFloat (s : string) : float * option error :=
  let '(neg, body) :=
    match s with
    | String "-"%char rest => (true, rest)
    | String "+"%char rest => (false, rest)
    | _ => (false, s)
    end in
  let '(whole, fraction) :=
    match go_strings.Split body "." with
    | [w] => (w, EmptyString)
    | [w; f] => (w, f)
    | _ => (EmptyString, EmptyString)
    end in
  match go_strconv.unsigned (whole +:+ fraction) with
  | None => (0%float, Some (LibraryError "invalid syntax"))
  | Some m =>
      let k := String.length fraction in
      if (m <? 2 ^ 53) && (k <=? 18)%nat then
        let q := (PrimFloat.of_uint63 (Uint63.of_Z m)
                  / PrimFloat.of_uint63 (Uint63.of_Z (10 ^ Z.of_nat k)))%float in
        ((if neg then - q else q)%float, None)
      else (0%float, Some (LibraryError "outside the instance"))
  end.

(** [json.Unmarshal(value, &metadata)] on the two shortest documents:
    an empty object leaves the entries as they are (and allocates a nil
    map), null makes the map nil; other documents are outside this
    instance and reported as errors. *)
Definition Unmarshal (doc : string) (metadata : gomap) : gomap * option error :=
  if String.eqb doc "{}" then
    (match metadata with Some m => Some m | None => Some ∅ end, None)
  else if String.eqb doc "null" then (None, None)
  else (metadata, Some (LibraryError "outside the instance")).

Definition no_fault : Query -> option sql_error := fun _ => None.

Definition gzip_tile : bytes := [x1f; x8b; x08; x00; x00; x00; x00; x00].

Definition tile (z x y : Z) : TileRow :=
  {| zoom_level := z; tile_column := x; tile_row := y; tile_data := Some gzip_tile |}.

Definition text_row (k v : string) : MetaRow :=
  {| meta_name := Some k; meta_value := Some v; meta_more := [] |}.

Definition standard_schema : list SchemaEntry :=
  [ {| obj_type := table; obj_name := "tiles" |};
    {| obj_type := table; obj_name := "metadata" |} ].

(** A tileset with tiles at the zoom levels 3 and 9 only. *)
Definition tileset (rows : list MetaRow) : Database :=
  {| sqlite_master := standard_schema;
     tiles := [tile 3 1 2; tile 9 4 5];
     metadata := rows;
     fault := no_fault |}.

(** CREATE TABLE tiles (...); CREATE INDEX metadata ON tiles (zoom_level);
    there is no metadata table. *)
Definition index_named_metadata : Database :=
  {| sqlite_master := [ {| obj_type := table; obj_name := "tiles" |};
                        {| obj_type := index; obj_name := "metadata" |} ];
     tiles := [tile 3 1 2; tile 9 4 5];
     metadata := [];
     fault := no_fault |}.

(** One container file foo.mbtiles, last written one second and a half
    after the zero time, with [content]; [journal] says whether
    foo.mbtiles-journal lies next to it. *)
Definition one_file (content : Database) (journal : bool) : Env :=
  let info := {| ModTime := 1500000000; IsDir := false |} in
  {| stat := fun p =>
       if String.eqb p "foo.mbtiles" then inl info
       else if journal && String.eqb p "foo.mbtiles-journal" then inl info
       else inr ErrNotExist;
     walk := fun _ =>
       if journal then [("foo.mbtiles", None); ("foo.mbtiles-journal", None)]
       else [("foo.mbtiles", None)];
     driver_refuses := fun _ => None;
     disk := fun _ => content |}.

(** The handle that [Open] returns for foo.mbtiles and the heap behind it. *)
Definition opened : MBtiles :=
  {| filename := "foo.mbtiles"; pool := Some 0%nat; tileStmt := Some 1%nat;
     format := PBF; timestamp := 2000000000; tilesize := 0 |}.

Definition opened_heap : Heap :=
  {| pools := [ {| pool_path := "foo.mbtiles"; pool_closed := false |} ];
     stmts := [ {| stmt_pool := 0%nat; stmt_closed := false |};
                {| stmt_pool := 0%nat; stmt_closed := false |} ] |}.

Definition closed_heap : Heap :=
  {| pools := [ {| pool_path := "foo.mbtiles"; pool_closed := true |} ];
     stmts := [ {| stmt_pool := 0%nat; stmt_closed := false |};
                {| stmt_pool := 0%nat; stmt_closed := true |} ] |}.

End Sample.

(** ** Vocabulary of the properties *)

(** What the function passed to [Walk] lets into the result. *)
Definition listed (env : Env) (p : string) : Prop :=
  (∃ e, stat env (p +:+ "-journal") = inr e) ∧ go_filepath.Ext p = ".mbtiles".

(** The heap after a successful [Open]: one more pool, for the path,
    and two more statements prepared on it. *)
Definition heap_after_Open (path : string) (h : go_sql.Heap) : go_sql.Heap :=
  let prepared := {| go_sql.stmt_pool := length (go_sql.pools h);
                     go_sql.stmt_closed := false |} in
  {| go_sql.pools :=
       go_sql.pools h ++ [{| go_sql.pool_path := path; go_sql.pool_closed := false |}];
     go_sql.stmts := (go_sql.stmts h ++ [prepared]) ++ [prepared] |}.

(** The test that the function passed to [Walk] makes on a path that
    was read without error. *)
Definition keeps (env : Env) (p : string) : bool :=
  match stat env (p +:+ "-journal") with
  | inl _ => false
  | inr _ => String.eqb (go_filepath.Ext p) ".mbtiles"
  end.

(** The keys for which the switch of [ReadMetadata] has no case. *)
Definition plain_key (key : string) : bool :=
  negb (bool_decide (key ∈ ["maxzoom"; "minzoom"]))
  && negb (bool_decide (key ∈ ["bounds"; "center"]))
  && negb (String.eqb key "json").

(** The rows that the metadata query yields for a table of name and
    value, both text. *)
Definition text_rows (pairs : list (string * string)) : list (list go_sql.cell) :=
  map (fun kv => [Some kv.1; Some kv.2]) pairs.

(** The bytes of a slice: none for the nil slice. *)
Definition payload_bytes (data : slice) : bytes :=
  match data with Some b => b | None => [] end.

(** The number of commas of a string. *)
Definition commas (str : string) : nat :=
  count_occ ascii_dec (list_ascii_of_string str) ","%char.

Module MoreSamples.

(** A directory with a.mbtiles and a subdirectory that cannot be read. *)
Definition unreadable_subdirectory : Env :=
  {| stat := fun _ => inr ErrNotExist;
     walk := fun _ => [("a.mbtiles", None); ("sub", Some ErrPermission);
                       ("z.mbtiles", None)];
     driver_refuses := fun _ => None;
     disk := fun _ => Sample.tileset [] |}.

(** A container with both tables and no tile. *)
Definition without_tiles (rows : list go_sql.MetaRow) : go_sql.Database :=
  {| go_sql.sqlite_master := Sample.standard_schema;
     go_sql.tiles := [];
     go_sql.metadata := rows;
     go_sql.fault := Sample.no_fault |}.

(** The handle of a second [Open] of foo.mbtiles and the heap after it. *)
Definition opened_again : MBtiles :=
  {| filename := "foo.mbtiles"; pool := Some 1%nat; tileStmt := Some 3%nat;
     format := PBF; timestamp := 2000000000; tilesize := 0 |}.

Definition opened_twice_heap : go_sql.Heap :=
  {| go_sql.pools :=
       [ {| go_sql.pool_path := "foo.mbtiles"; go_sql.pool_closed := false |};
         {| go_sql.pool_path := "foo.mbtiles"; go_sql.pool_closed := false |} ];
     go_sql.stmts :=
       [ {| go_sql.stmt_pool := 0%nat; go_sql.stmt_closed := false |};
         {| go_sql.stmt_pool := 0%nat; go_sql.stmt_closed := false |};
         {| go_sql.stmt_pool := 1%nat; go_sql.stmt_closed := false |};
         {| go_sql.stmt_pool := 1%nat; go_sql.stmt_closed := false |} ] |}.

End MoreSamples.

(** * Properties *)

(** ** Paths and the locator *)

Lemma list_ascii_of_string_app (a b : string) :
  list_ascii_of_string (a +:+ b) = (list_ascii_of_string a ++ list_ascii_of_string b)%list.
Proof. induction a as [|c a IH]; simpl; [reflexivity | now rewrite IH]. Qed.

(** The scan either finds no extension or keeps the bytes it has passed
    as the end of the extension. *)
Lemma ext_scan_keeps_suffix (backwards suffix : list ascii) :
  go_filepath.ext_scan backwards suffix = []
  ∨ ∃ front, go_filepath.ext_scan backwards suffix = (front ++ suffix)%list.
Proof.
  revert suffix. induction backwards as [|c before IH]; intros suffix; simpl.
  - now left.
  - destruct (go_filepath.IsPathSeparator c); [now left|].
    destruct (Ascii.eqb c "."); [right; now exists [c]|].
    destruct (IH (c :: suffix)) as [-> | [front ->]]; [now left|].
    right. exists (front ++ [c])%list. now rewrite <- app_assoc.
Qed.

(** The extension of a path that ends in -journal is not .mbtiles. *)
Lemma Ext_journal (p : string) : go_filepath.Ext (p +:+ "-journal") ≠ ".mbtiles".
Proof.
  unfold go_filepath.Ext. rewrite list_ascii_of_string_app, rev_app_distr. simpl.
  match goal with
  | |- context [go_filepath.ext_scan ?l ?s] =>
      destruct (ext_scan_keeps_suffix l s) as [-> | [front ->]]
  end; [discriminate|].
  intros H. apply (f_equal list_ascii_of_string) in H.
  rewrite list_ascii_of_string_of_list_ascii in H.
  apply (f_equal (@rev ascii)) in H. rewrite rev_app_distr in H.
  simpl in H. discriminate.
Qed.

Lemma FindMBtiles_listed (env : Env) (root p : string) :
  p ∈ (FindMBtiles env root).1 → listed env p.
Proof.
  unfold FindMBtiles.
  set (fn := fun (p : string) (err : option os_error) (filenames : list string) => _).
  assert (Hwalk : ∀ visits acc,
    (∀ q, q ∈ acc → listed env q) →
    ∀ q, q ∈ (go_filepath.Walk visits fn acc).1 → listed env q).
  { induction visits as [|[q0 err] visits IH]; intros acc Hacc q; simpl; [apply Hacc|].
    unfold fn at 1. destruct err as [e|]; simpl; [apply Hacc|].
    destruct (stat env (q0 +:+ "-journal")) as [i|e] eqn:Hj; [apply IH, Hacc|].
    destruct (String.eqb_spec (go_filepath.Ext q0) ".mbtiles") as [Hext|_];
      [|apply IH, Hacc].
    apply IH. intros q' [Hq'| ->%list_elem_of_singleton]%elem_of_app; [now apply Hacc|].
    split; [now exists e | assumption]. }
  specialize (Hwalk (walk env root) [] ltac:(intros q Hq; inversion Hq) p).
  destruct (go_filepath.Walk (walk env root) fn []) as [res [e|]]; simpl in *.
  - intros Hp. inversion Hp.
  - exact Hwalk.
Qed.

(** ** Opening *)

Section opening.

Variable detectTileFormat : slice -> TileFormat * option error.
Variable detectTileSize : TileFormat -> slice -> Z * option error.

Lemma getTileFormatAndSize_not_GZIP env h con :
  (getTileFormatAndSize detectTileFormat detectTileSize env h con).1.1 ≠ GZIP.
Proof.
  unfold getTileFormatAndSize.
  destruct (go_sql.on_pool _ _ _ _) as [tileData|e]; simpl; [|discriminate].
  destruct (detectTileFormat tileData) as [f [e|]]; simpl; [discriminate|].
  destruct (detectTileSize _ tileData) as [n [e|]]; destruct f; simpl; discriminate.
Qed.

(** What a successful [Open] has seen and what it returns. *)
Lemma Open_success env path h db h' :
  Open detectTileFormat detectTileSize env path h = ((Some db, None), h') →
  ∃ info,
    stat env path = inl info
    ∧ (∃ e, stat env (path +:+ "-journal") = inr e)
    ∧ filename db = path
    ∧ pool db = Some (length (go_sql.pools h))
    ∧ tileStmt db = Some (S (length (go_sql.stmts h)))
    ∧ timestamp db = go_time.Round (ModTime info) go_time.Second
    ∧ format db ≠ GZIP
    ∧ h' = heap_after_Open path h.
Proof.
  unfold Open, go_sql.Open, getConnection, go_sql.Prepare. intros H.
  destruct (stat env path) as [info|e] eqn:Hstat;
    [|destruct (is_not_exist e); discriminate].
  destruct (stat env (path +:+ "-journal")) as [?|ej] eqn:Hj; [discriminate|].
  destruct (driver_refuses env path); [discriminate|].
  destruct (validateRequiredTables _ _ _); [discriminate|].
  match type of H with
  | context [getTileFormatAndSize ?a ?b ?c ?d ?e] =>
      pose proof (getTileFormatAndSize_not_GZIP c d e) as Hfmt;
      destruct (getTileFormatAndSize a b c d e) as [[f n] [e1|]]; [discriminate|]
  end.
  destruct (go_sql.on_pool _ _ _ go_sql.prepare_tile) as [[]|e1]; [|discriminate].
  destruct (go_sql.on_pool _ _ _ go_sql.prepare_tile) as [[]|e2]; [|discriminate].
  injection H as <- <-. exists info. simpl in *.
  repeat split; try reflexivity; try assumption; [now exists ej|].
  unfold heap_after_Open. simpl. now rewrite length_app, Nat.add_1_r.
Qed.

(** A failed [Open] hands out no handle. *)
Lemma Open_failure env path h db e h' :
  Open detectTileFormat detectTileSize env path h = ((db, Some e), h') → db = None.
Proof.
  unfold Open, go_sql.Open, getConnection, go_sql.Prepare. intros H.
  repeat match type of H with
  | context [match ?x with _ => _ end] => destruct x
  | context [if ?x then _ else _] => destruct x
  end; congruence.
Qed.

(** With a journal next to the file, [Open] stops before [sql.Open]. *)
Lemma Open_journal env path h info journal :
  stat env path = inl info →
  stat env (path +:+ "-journal") = inl journal →
  Open detectTileFormat detectTileSize env path h = ((None, Some IncompleteTileset), h).
Proof. intros H1 H2. unfold Open. now rewrite H1, H2. Qed.

End opening.

(** ** Closing and reading *)

Lemma Close_handle (d : MBtiles) (h : go_sql.Heap) : ∃ h', Close (Some d) h = Returns h'.
Proof. unfold Close. eauto. Qed.

(** Closing twice is closing once. *)
Lemma Close_idempotent (d : MBtiles) (h h1 : go_sql.Heap) :
  Close (Some d) h = Returns h1 → Close (Some d) h1 = Returns h1.
Proof.
  unfold Close. intros [= <-]. f_equal.
  destruct h as [ps ss], (tileStmt d) as [s|], (pool d) as [p|];
    unfold go_sql.DB_Close, go_sql.Stmt_Close; simpl;
    rewrite ?list_alter_alter_eq; reflexivity.
Qed.

(** [Close] marks the statement and the pool of the handle and leaves the
    fields of the handle as they are. *)
Lemma Close_marks (d : MBtiles) (h h' : go_sql.Heap) :
  Close (Some d) h = Returns h' →
  (∀ s, tileStmt d = Some s → (s < length (go_sql.stmts h))%nat →
     ∃ st, go_sql.stmts h' !! s = Some st ∧ go_sql.stmt_closed st = true)
  ∧ (∀ p, pool d = Some p → (p < length (go_sql.pools h))%nat →
     ∃ ps, go_sql.pools h' !! p = Some ps ∧ go_sql.pool_closed ps = true).
Proof.
  unfold Close. intros [= <-]. split.
  - intros s -> Hs. apply lookup_lt_is_Some in Hs as [st Hst].
    destruct (pool d); simpl; rewrite list_lookup_alter_eq, Hst; simpl; eauto.
  - intros p -> Hp. apply lookup_lt_is_Some in Hp as [ps Hps].
    destruct (tileStmt d); simpl; rewrite list_lookup_alter_eq, Hps; simpl; eauto.
Qed.

Lemma ReadTile_closed_statement env h d s st z x y data :
  tileStmt d = Some s → go_sql.stmts h !! s = Some st → go_sql.stmt_closed st = true →
  ReadTile env h (Some d) z x y data = (data, Some (SqlError ErrStmtClosed)).
Proof. intros Hs Hst Hc. unfold ReadTile, go_sql.on_stmt. now rewrite Hs, Hst, Hc. Qed.

Lemma ReadMetadata_closed_pool ParseFloat Unmarshal env h d p ps :
  pool d = Some p → go_sql.pools h !! p = Some ps → go_sql.pool_closed ps = true →
  ReadMetadata ParseFloat Unmarshal env h (Some d)
  = Returns (None, Some (SqlError ErrDBClosed)).
Proof.
  intros Hp Hps Hc. unfold ReadMetadata, getConnection, go_sql.on_pool.
  now rewrite Hp, Hps, Hc.
Qed.

(** C2. After [Open] has succeeded and [Close] has run, the fields of the
    handle are still set, so the guard of [ReadTile] and [ReadMetadata]
    lets the call through: [ReadTile] returns the error of the closed
    statement and [ReadMetadata] the error of the closed pool, neither of
    which is the closed-database error of the package. That error is
    returned for a nil handle and for a handle whose fields were never
    set. *)
Theorem reads_after_Close detectTileFormat detectTileSize ParseFloat Unmarshal
    env path h db h1 h2 :
  Open detectTileFormat detectTileSize env path h = ((Some db, None), h1) →
  Close (Some db) h1 = Returns h2 →
  (∀ z x y data,
     ReadTile env h2 (Some db) z x y data = (data, Some (SqlError ErrStmtClosed)))
  ∧ ReadMetadata ParseFloat Unmarshal env h2 (Some db)
    = Returns (None, Some (SqlError ErrDBClosed))
  ∧ SqlError ErrStmtClosed ≠ ClosedDatabase
  ∧ SqlError ErrDBClosed ≠ ClosedDatabase
  ∧ (∀ h' z x y data, ReadTile env h' None z x y data = (data, Some ClosedDatabase))
  ∧ (∀ h', ReadMetadata ParseFloat Unmarshal env h' None
           = Returns (None, Some ClosedDatabase)).
Proof.
  intros HOpen HClose.
  apply Open_success in HOpen as (info & _ & _ & _ & Hpool & Hstmt & _ & _ & ->).
  apply Close_marks in HClose as [Hs Hp].
  destruct (Hs _ Hstmt) as (st & Hst & Hstc).
  { simpl. rewrite !length_app. simpl. lia. }
  destruct (Hp _ Hpool) as (ps & Hps & Hpsc).
  { simpl. rewrite length_app. simpl. lia. }
  repeat split; try discriminate.
  - intros. eapply ReadTile_closed_statement; eassumption.
  - eapply ReadMetadata_closed_pool; eassumption.
Qed.

Lemma reads_after_Close_witness :
  ReadTile (Sample.one_file (Sample.tileset []) false) Sample.closed_heap
    (Some Sample.opened) 3 1 2 None
  = (None, Some (SqlError ErrStmtClosed)).
Proof.
  apply (reads_after_Close FormatSniffer.detectTileFormat FormatSniffer.detectTileSize
           Sample.ParseFloat Sample.Unmarshal
           (Sample.one_file (Sample.tileset []) false) "foo.mbtiles"
           go_sql.empty_heap Sample.opened Sample.opened_heap Sample.closed_heap);
    reflexivity.
Defined.

(** C7. Whenever [Open] returns an error the handle it returns is nil, and
    [Close] on a nil handle reads a field through the nil pointer: it
    panics. ([ReadTile] and [ReadMetadata] test the handle for nil first.) *)
Theorem Close_after_failed_Open detectTileFormat detectTileSize env path h db e h' :
  Open detectTileFormat detectTileSize env path h = ((db, Some e), h') →
  db = None ∧ Close db h' = Panics nil_dereference.
Proof. intros ->%Open_failure. now split. Qed.

Lemma Close_after_failed_Open_witness :
  Close None go_sql.empty_heap = Panics nil_dereference.
Proof.
  apply (Close_after_failed_Open FormatSniffer.detectTileFormat
           FormatSniffer.detectTileSize
           (Sample.one_file (Sample.tileset []) false) "bar.mbtiles"
           go_sql.empty_heap None (PathDoesNotExist "bar.mbtiles") go_sql.empty_heap).
  reflexivity.
Defined.

(** On an engine that answers, the point lookup yields the scanned
    payload of the first row at the coordinate, or [sql.ErrNoRows]. *)
Lemma tile_at_answer (c : go_sql.Database) (z x y : Z) :
  go_sql.fault c (go_sql.QTile z x y) = None →
  go_sql.has_relation c "tiles" = true →
  go_sql.tile_at c z x y
  = match List.find (go_sql.at_coordinate z x y) (go_sql.tiles c) with
    | Some r => inl (go_sql.scan_bytes (go_sql.tile_data r))
    | None => inr ErrNoRows
    end.
Proof.
  intros Hf Hr. unfold go_sql.tile_at, go_sql.answer. rewrite Hf, Hr.
  now destruct (List.find _ _).
Qed.

(** C3. On an open handle [ReadTile] has two ways to succeed: a row at the
    coordinate gives the bytes of its payload and a nil error (the slice
    is the payload itself when it has bytes, and nil when the payload is
    NULL or has no bytes), no row gives a nil payload and a nil error.
    An error is returned exactly when the query or the scan fails with
    something else than [sql.ErrNoRows], and it is that failure. *)
Theorem ReadTile_outcomes env h d s st ps z x y data :
  tileStmt d = Some s →
  go_sql.stmts h !! s = Some st → go_sql.stmt_closed st = false →
  go_sql.pools h !! go_sql.stmt_pool st = Some ps → go_sql.pool_closed ps = false →
  let c := disk env (go_sql.pool_path ps) in
  let result := ReadTile env h (Some d) z x y data in
  (go_sql.fault c (go_sql.QTile z x y) = None → go_sql.has_relation c "tiles" = true →
     (∃ r, r ∈ go_sql.tiles c ∧ go_sql.at_coordinate z x y r = true) →
     ∃ r, r ∈ go_sql.tiles c ∧ go_sql.at_coordinate z x y r = true
          ∧ result = (go_sql.scan_bytes (go_sql.tile_data r), None)
          ∧ payload_bytes result.1 = payload_bytes (go_sql.tile_data r)
          ∧ (∀ b rest, go_sql.tile_data r = Some (b :: rest) →
               result = (Some (b :: rest), None)))
  ∧ (go_sql.fault c (go_sql.QTile z x y) = None → go_sql.has_relation c "tiles" = true →
     (∀ r, r ∈ go_sql.tiles c → go_sql.at_coordinate z x y r = false) →
     result = (None, None))
  ∧ (∀ e, go_sql.tile_at c z x y = inr e → e ≠ ErrNoRows →
     result = (data, Some (SqlError e)))
  ∧ (∀ e, result.2 = Some e →
     ∃ e', e = SqlError e' ∧ e' ≠ ErrNoRows ∧ go_sql.tile_at c z x y = inr e').
Proof.
  intros Hs Hst Hstc Hps Hpsc c result.
  assert (Hresult : result = match go_sql.tile_at c z x y with
                             | inl payload => (payload, None)
                             | inr ErrNoRows => (None, None)
                             | inr e => (data, Some (SqlError e))
                             end).
  { unfold result, ReadTile, go_sql.on_stmt, go_sql.on_pool.
    now rewrite Hs, Hst, Hstc, Hps, Hpsc. }
  repeat split.
  - intros Hf Hr [r [Hin Hat]]. rewrite Hresult, tile_at_answer by assumption.
    destruct (List.find _ _) as [r'|] eqn:Hfind.
    + apply find_some in Hfind as [Hin' Hat']. exists r'.
      rewrite list_elem_of_In. repeat split; try assumption.
      * simpl. now destruct (go_sql.tile_data r') as [[|b rest]|].
      * intros b rest ->. reflexivity.
    + apply list_elem_of_In in Hin.
      pose proof (find_none _ _ Hfind _ Hin) as Hno. congruence.
  - intros Hf Hr Hnone. rewrite Hresult, tile_at_answer by assumption.
    destruct (List.find _ _) as [r'|] eqn:Hfind; [|reflexivity].
    apply find_some in Hfind as [Hin' Hat']. apply list_elem_of_In in Hin'.
    rewrite (Hnone _ Hin') in Hat'. discriminate.
  - intros e He Hne. rewrite Hresult, He. now destruct e.
  - intros e. rewrite Hresult.
    destruct (go_sql.tile_at c z x y) as [payload|e']; [discriminate|].
    destruct e'; simpl; intros [= <-]; eexists; (split; [reflexivity|]); now split.
Qed.

Lemma ReadTile_outcomes_witness :
  ReadTile (Sample.one_file (Sample.tileset []) false) Sample.opened_heap
    (Some Sample.opened) 3 1 1 (Some [])
  = (None, None).
Proof.
  apply (ReadTile_outcomes (Sample.one_file (Sample.tileset []) false)
           Sample.opened_heap Sample.opened 1%nat
           {| go_sql.stmt_pool := 0%nat; go_sql.stmt_closed := false |}
           {| go_sql.pool_path := "foo.mbtiles"; go_sql.pool_closed := false |}
           3 1 1 (Some [])); try reflexivity.
  intros r Hr. simpl in Hr.
  apply elem_of_cons in Hr as [->|Hr]; [reflexivity|].
  apply list_elem_of_singleton in Hr as ->. reflexivity.
Defined.

(** ** The locator and the journal *)

(** C8. A path with a -journal file next to it is not in the result of
    [FindMBtiles], no path that ends in -journal is, and [Open] on it
    returns the incomplete-tileset error with the heap as it was: no pool
    has been opened. *)
Theorem journal_excludes detectTileFormat detectTileSize env root p info journal :
  stat env p = inl info →
  stat env (p +:+ "-journal") = inl journal →
  (p ∉ (FindMBtiles env root).1)
  ∧ (∀ q, q +:+ "-journal" ∉ (FindMBtiles env root).1)
  ∧ (∀ h, Open detectTileFormat detectTileSize env p h
          = ((None, Some IncompleteTileset), h)).
Proof.
  intros Hstat Hj. repeat split.
  - intros [[e He] _]%FindMBtiles_listed. congruence.
  - intros q [_ Hext]%FindMBtiles_listed. now apply Ext_journal in Hext.
  - intros h. eapply Open_journal; eassumption.
Qed.

Lemma journal_excludes_witness :
  ("foo.mbtiles" ∉ (FindMBtiles (Sample.one_file (Sample.tileset []) true) ".").1)
  ∧ (∀ q, q +:+ "-journal"
          ∉ (FindMBtiles (Sample.one_file (Sample.tileset []) true) ".").1)
  ∧ (∀ h, Open FormatSniffer.detectTileFormat FormatSniffer.detectTileSize
            (Sample.one_file (Sample.tileset []) true) "foo.mbtiles" h
          = ((None, Some IncompleteTileset), h)).
Proof.
  apply (journal_excludes FormatSniffer.detectTileFormat FormatSniffer.detectTileSize
           (Sample.one_file (Sample.tileset []) true) "." "foo.mbtiles"
           {| ModTime := 1500000000; IsDir := false |}
           {| ModTime := 1500000000; IsDir := false |}); reflexivity.
Defined.

(** ** The timestamp *)

Lemma Round_Second (t : go_time.Time) :
  let r := go_time.Round t go_time.Second in
  r mod go_time.Second = 0
  ∧ 2 * (r - t) ≤ go_time.Second
  ∧ 2 * (t - r) < go_time.Second
  ∧ (r = go_time.Truncate t go_time.Second ↔ 2 * (t mod go_time.Second) < go_time.Second).
Proof.
  unfold go_time.Round, go_time.Truncate, go_time.Second. simpl.
  pose proof (Z.mod_pos_bound t 1000000000 ltac:(lia)) as Hr.
  pose proof (Z.div_mod t 1000000000 ltac:(lia)) as Ht.
  destruct (Z.ltb_spec (t mod 1000000000 + t mod 1000000000) 1000000000) as [Hlt|Hge].
  - repeat split; try lia.
    replace (t - t mod 1000000000) with (t / 1000000000 * 1000000000) by lia.
    apply Z.mod_mul. lia.
  - repeat split; try lia.
    replace (t + (1000000000 - t mod 1000000000))
      with ((t / 1000000000 + 1) * 1000000000) by lia.
    apply Z.mod_mul. lia.
Qed.

(** C6, as amended. The timestamp of a handle that [Open] returns is the
    last-modified time of the file rounded to the nearest whole second,
    half a second and more rounded up: a whole number of seconds at most
    half a second away from the last-modified time, which is the
    truncated time exactly when the fraction of a second is below one
    half. The accessor reads a field of the handle and nothing else. *)
Theorem timestamp_rounded detectTileFormat detectTileSize env path h db h' info :
  Open detectTileFormat detectTileSize env path h = ((Some db, None), h') →
  stat env path = inl info →
  GetTimestamp db = go_time.Round (ModTime info) go_time.Second
  ∧ GetTimestamp db mod go_time.Second = 0
  ∧ 2 * (GetTimestamp db - ModTime info) ≤ go_time.Second
  ∧ 2 * (ModTime info - GetTimestamp db) < go_time.Second
  ∧ (GetTimestamp db = go_time.Truncate (ModTime info) go_time.Second
     ↔ 2 * (ModTime info mod go_time.Second) < go_time.Second).
Proof.
  intros (info' & Hstat & _ & _ & _ & _ & Hts & _)%Open_success Hinfo.
  rewrite Hinfo in Hstat. injection Hstat as <-.
  unfold GetTimestamp. rewrite Hts. split; [reflexivity|]. apply Round_Second.
Qed.

Lemma timestamp_rounded_witness :
  GetTimestamp Sample.opened = go_time.Round 1500000000 go_time.Second
  ∧ GetTimestamp Sample.opened mod go_time.Second = 0
  ∧ 2 * (GetTimestamp Sample.opened - 1500000000) ≤ go_time.Second
  ∧ 2 * (1500000000 - GetTimestamp Sample.opened) < go_time.Second
  ∧ (GetTimestamp Sample.opened = go_time.Truncate 1500000000 go_time.Second
     ↔ 2 * (1500000000 mod go_time.Second) < go_time.Second).
Proof.
  apply (timestamp_rounded FormatSniffer.detectTileFormat FormatSniffer.detectTileSize
           (Sample.one_file (Sample.tileset []) false) "foo.mbtiles"
           go_sql.empty_heap Sample.opened Sample.opened_heap
           {| ModTime := 1500000000; IsDir := false |}); reflexivity.
Defined.

(** C6, as stated, fails: a file last written 1.5 s after the zero time
    is opened with the timestamp 2 s, and the truncated time is 1 s. *)
Lemma timestamp_not_truncated :
  ¬ (∀ env path h db h' info,
       Open FormatSniffer.detectTileFormat FormatSniffer.detectTileSize env path h
       = ((Some db, None), h') →
       stat env path = inl info →
       GetTimestamp db = go_time.Truncate (ModTime info) go_time.Second).
Proof.
  intros H.
  specialize (H (Sample.one_file (Sample.tileset []) false) "foo.mbtiles"
                go_sql.empty_heap Sample.opened Sample.opened_heap
                {| ModTime := 1500000000; IsDir := false |} eq_refl eq_refl).
  vm_compute in H. discriminate.
Qed.

(** ** Structural validation *)

(** On a pool that answers, the validation compares the number of rows of
    [sqlite_master] named tiles or metadata with two, whatever the rows
    are: tables, views, indices or triggers. *)
Lemma validateRequiredTables_counts env h con ps :
  go_sql.pools h !! con = Some ps → go_sql.pool_closed ps = false →
  let c := disk env (go_sql.pool_path ps) in
  go_sql.fault c go_sql.QTableCount = None →
  validateRequiredTables env h con
  = if (length (filter (fun e => go_sql.obj_name e ∈ ["tiles"; "metadata"])
                  (go_sql.sqlite_master c)) <? 2)%nat
    then Some MissingTables else None.
Proof.
  intros Hps Hc c Hf.
  unfold validateRequiredTables, go_sql.on_pool, go_sql.table_count, go_sql.answer.
  rewrite Hps, Hc. fold c. rewrite Hf.
  set (n := length _).
  destruct (Z.ltb_spec (Z.of_nat n) 2), (Nat.ltb_spec n 2); (reflexivity || lia).
Qed.

Lemma filter_two {A} (P : A → Prop) `{∀ x, Decision (P x)} (l : list A) (a b : A) :
  a ≠ b → a ∈ l → b ∈ l → P a → P b → (2 ≤ length (filter P l))%nat.
Proof.
  intros Hab Ha Hb HPa HPb.
  apply list_elem_of_split in Ha as (l1 & l2 & ->).
  rewrite filter_app, filter_cons_True, length_app by assumption. simpl.
  apply elem_of_app in Hb as [Hb|Hb].
  - assert (b ∈ filter P l1) as Hin by now apply list_elem_of_filter.
    destruct (filter P l1); [inversion Hin | simpl; lia].
  - apply elem_of_cons in Hb as [Hb|Hb]; [congruence|].
    assert (b ∈ filter P l2) as Hin by now apply list_elem_of_filter.
    destruct (filter P l2); [inversion Hin | simpl; lia].
Qed.

(** A container with both tables passes the validation. *)
Lemma validateRequiredTables_both env h con ps :
  go_sql.pools h !! con = Some ps → go_sql.pool_closed ps = false →
  let c := disk env (go_sql.pool_path ps) in
  go_sql.fault c go_sql.QTableCount = None →
  {| go_sql.obj_type := go_sql.table; go_sql.obj_name := "tiles" |}
    ∈ go_sql.sqlite_master c →
  {| go_sql.obj_type := go_sql.table; go_sql.obj_name := "metadata" |}
    ∈ go_sql.sqlite_master c →
  validateRequiredTables env h con = None.
Proof.
  intros Hps Hc c Hf Ht Hm.
  rewrite (validateRequiredTables_counts _ _ _ _ Hps Hc Hf). fold c.
  destruct (Nat.ltb_spec
    (length (filter (fun e => go_sql.obj_name e ∈ ["tiles"; "metadata"])
               (go_sql.sqlite_master c))) 2) as [Hlt|]; [|reflexivity].
  pose proof (filter_two (fun e => go_sql.obj_name e ∈ ["tiles"; "metadata"])
                (go_sql.sqlite_master c)
                {| go_sql.obj_type := go_sql.table; go_sql.obj_name := "tiles" |}
                {| go_sql.obj_type := go_sql.table; go_sql.obj_name := "metadata" |}
                ltac:(discriminate) Ht Hm
                ltac:(simpl; set_solver) ltac:(simpl; set_solver)).
  lia.
Qed.

(** C5. The count is taken over names only. A container made by
    CREATE TABLE tiles and CREATE INDEX metadata ON tiles has no metadata
    table and two rows of [sqlite_master] with the names asked for: the
    validation passes, [Open] returns a handle, and [ReadMetadata] then
    finds no metadata table. *)
Theorem validateRequiredTables_index_named_metadata :
  go_sql.has_relation Sample.index_named_metadata "tiles" = true
  ∧ go_sql.has_relation Sample.index_named_metadata "metadata" = false
  ∧ validateRequiredTables (Sample.one_file Sample.index_named_metadata false)
      Sample.opened_heap 0%nat = None
  ∧ Open FormatSniffer.detectTileFormat FormatSniffer.detectTileSize
      (Sample.one_file Sample.index_named_metadata false) "foo.mbtiles"
      go_sql.empty_heap
    = ((Some Sample.opened, None), Sample.opened_heap)
  ∧ ReadMetadata Sample.ParseFloat Sample.Unmarshal
      (Sample.one_file Sample.index_named_metadata false) Sample.opened_heap
      (Some Sample.opened)
    = Returns (None, Some (SqlError (ErrNoSuchTable "metadata"))).
Proof. repeat split; reflexivity. Qed.

(** ** Format detection *)

Lemma getTileFormat_not_GZIP detectTileFormat env h con :
  (getTileFormat detectTileFormat env h con).1 ≠ GZIP.
Proof.
  unfold getTileFormat.
  destruct (go_sql.on_pool _ _ _ _) as [magicWord|e]; simpl; [|discriminate].
  destruct (detectTileFormat magicWord) as [f [e|]]; simpl; [discriminate|].
  destruct f; discriminate.
Qed.

(** C4. A first tile that starts with the gzip signature is detected as
    GZIP by the sniffer and classified as PBF by [getTileFormat] and
    [getTileFormatAndSize], with the size 0; whatever the sniffer
    answers, neither function returns GZIP, and no handle that [Open]
    returns has the format GZIP. *)
Theorem gzip_is_PBF env h con ps data :
  go_sql.pools h !! con = Some ps → go_sql.pool_closed ps = false →
  go_sql.first_tile (disk env (go_sql.pool_path ps)) = inl (Some data) →
  FormatSniffer.has_prefix FormatSniffer.gzip_magic data = true →
  FormatSniffer.detectTileFormat (Some data) = (GZIP, None)
  ∧ getTileFormat FormatSniffer.detectTileFormat env h con = (PBF, None)
  ∧ getTileFormatAndSize FormatSniffer.detectTileFormat FormatSniffer.detectTileSize
      env h con = (PBF, 0, None)
  ∧ (∀ detectTileFormat detectTileSize env' h' con',
       (getTileFormat detectTileFormat env' h' con').1 ≠ GZIP
       ∧ (getTileFormatAndSize detectTileFormat detectTileSize env' h' con').1.1 ≠ GZIP)
  ∧ (∀ detectTileFormat detectTileSize env' path h0 db h1,
       Open detectTileFormat detectTileSize env' path h0 = ((Some db, None), h1) →
       GetTileFormat db ≠ GZIP).
Proof.
  intros Hps Hc Hfirst Hmagic.
  assert (Hdetect : FormatSniffer.detectTileFormat (Some data) = (GZIP, None)).
  { unfold FormatSniffer.detectTileFormat, FormatSniffer.signatures,
      FormatSniffer.contents.
    cbn [FormatSniffer.first_match]. now rewrite Hmagic. }
  repeat split.
  - exact Hdetect.
  - unfold getTileFormat, go_sql.on_pool. now rewrite Hps, Hc, Hfirst, Hdetect.
  - unfold getTileFormatAndSize, go_sql.on_pool. now rewrite Hps, Hc, Hfirst, Hdetect.
  - apply getTileFormat_not_GZIP.
  - apply getTileFormatAndSize_not_GZIP.
  - intros dF dS env' path h0 db h1 HOpen.
    now apply Open_success in HOpen as (_ & _ & _ & _ & _ & _ & _ & Hfmt & _).
Qed.

Lemma gzip_is_PBF_witness :
  getTileFormatAndSize FormatSniffer.detectTileFormat FormatSniffer.detectTileSize
    (Sample.one_file (Sample.tileset []) false) Sample.opened_heap 0%nat
  = (PBF, 0, None).
Proof.
  apply (gzip_is_PBF (Sample.one_file (Sample.tileset []) false) Sample.opened_heap
           0%nat {| go_sql.pool_path := "foo.mbtiles"; go_sql.pool_closed := false |}
           Sample.gzip_tile); reflexivity.
Defined.

(** ** Metadata *)

Lemma floats_key_not_zoom (k : string) :
  k ∈ ["bounds"; "center"] → bool_decide (k ∈ ["maxzoom"; "minzoom"]) = false.
Proof.
  intros Hk. apply bool_decide_eq_false. intros Hz.
  apply elem_of_cons in Hk as [->|Hk];
    [|apply list_elem_of_singleton in Hk as ->];
    (apply elem_of_cons in Hz as [Hz|Hz];
      [discriminate | apply list_elem_of_singleton in Hz; discriminate]).
Qed.

Section metadata.

Variable ParseFloat : string -> float * option error.
Variable Unmarshal : string -> gomap -> gomap * option error.

(** When the fields all parse, the result holds their values in order. *)
Lemma parseFloats_range_parsed str fields out vs :
  Forall2 (fun field v => ParseFloat (go_strings.TrimSpace field) = (v, None)) fields vs →
  parseFloats_range ParseFloat str fields out = ((out ++ vs)%list, None).
Proof.
  intros H. revert out. induction H as [|field v fields vs Hv _ IH]; intros out; simpl.
  - now rewrite app_nil_r.
  - rewrite Hv, IH. now rewrite <- app_assoc.
Qed.

Lemma parseFloats_range_inv str fields out res :
  parseFloats_range ParseFloat str fields out = (res, None) →
  ∃ vs, res = (out ++ vs)%list
        ∧ Forall2 (fun field v => ParseFloat (go_strings.TrimSpace field) = (v, None))
            fields vs.
Proof.
  revert out. induction fields as [|field fields IH]; intros out; simpl.
  - intros [= <-]. exists []. now rewrite app_nil_r.
  - destruct (ParseFloat (go_strings.TrimSpace field)) as [v [e|]] eqn:Hv; [discriminate|].
    intros (vs & -> & Hvs)%IH. exists (v :: vs). rewrite <- app_assoc. split; [reflexivity|].
    now constructor.
Qed.

(** A field that does not parse ends the loop with an error. *)
Lemma parseFloats_range_failed str fields out field v e :
  field ∈ fields → ParseFloat (go_strings.TrimSpace field) = (v, Some e) →
  ∃ res e', parseFloats_range ParseFloat str fields out = (res, Some (BadFloats str e')).
Proof.
  intros Hin Hv. revert out. induction fields as [|f fields IH]; intros out; simpl.
  - inversion Hin.
  - destruct (ParseFloat (go_strings.TrimSpace f)) as [v' [e'|]] eqn:Hf; [eauto|].
    apply elem_of_cons in Hin as [->|Hin]; [congruence|]. now apply IH.
Qed.

(** The loop over the rows returns no error of a scan: what it returns
    is an error of decoding an item. *)
Lemma scan_rows_errors rows key value metadata e :
  scan_rows ParseFloat Unmarshal rows key value metadata = Returns (inr e) →
  (∃ k cause, e = BadMetadataItem k cause) ∨ (∃ cause, e = BadJSON cause).
Proof.
  revert key value metadata. induction rows as [|r rows IH]; intros key value metadata;
    simpl; [discriminate|].
  destruct (go_sql.Scan2 r key value) as [[k v] _].
  destruct (switch_key ParseFloat Unmarshal k v metadata) as [[md|e']|why] eqn:Hsw;
    [apply IH| |discriminate].
  intros [= <-]. revert Hsw. unfold switch_key.
  repeat case_bool_decide.
  all: repeat match goal with
       | |- context [match ?x with _ => _ end] => destruct x
       end; intros [= <-]; eauto.
Qed.

(** A row of bounds or center that was scanned and did not parse ends
    the loop. *)
Lemma scan_rows_floats rows key value metadata md k str :
  scan_rows ParseFloat Unmarshal rows key value metadata = Returns (inl md) →
  [Some k; Some str] ∈ rows → k ∈ ["bounds"; "center"] →
  (parseFloats ParseFloat str).2 = None.
Proof.
  intros Hloop Hin Hk. revert key value metadata Hloop.
  induction rows as [|r rows IH]; intros key value metadata; [inversion Hin|].
  simpl. apply elem_of_cons in Hin as [<-|Hin].
  - simpl. unfold switch_key.
    rewrite (floats_key_not_zoom _ Hk).
    rewrite bool_decide_eq_true_2 by assumption.
    destruct (parseFloats ParseFloat str) as [out [e|]]; [|reflexivity].
    destruct (store metadata k (VFloat64s out)); discriminate.
  - destruct (go_sql.Scan2 r key value) as [[k' v'] _].
    destruct (switch_key ParseFloat Unmarshal k' v' metadata) as [[md'|e']|why];
      [now apply IH|discriminate|discriminate].
Qed.

End metadata.

(** [parseFloats] and the case of bounds and center in the switch:
    [parseFloats] succeeds exactly when every comma-separated field,
    trimmed of white space, parses, and then returns the values in the
    order of the fields, which the map stores under the key; a field that
    does not parse makes [parseFloats] fail, the switch on an allocated
    map return the error of the item, and [ReadMetadata] not return a
    mapping. In particular the value "-1.5, 2.25,10,-3" gives -1.5, 2.25,
    10 and -3 in that order. *)
Theorem bounds_and_center ParseFloat Unmarshal key str :
  key ∈ ["bounds"; "center"] →
  (∀ vs,
     Forall2 (fun field v => ParseFloat (go_strings.TrimSpace field) = (v, None))
       (go_strings.Split str ",") vs
     ↔ parseFloats ParseFloat str = (vs, None))
  ∧ (∀ vs m, parseFloats ParseFloat str = (vs, None) →
       switch_key ParseFloat Unmarshal key str (Some m)
       = Returns (inl (Some (<[key := VFloat64s vs]> m))))
  ∧ (∀ field v e,
       field ∈ go_strings.Split str "," →
       ParseFloat (go_strings.TrimSpace field) = (v, Some e) →
       (∃ out e', parseFloats ParseFloat str = (out, Some (BadFloats str e')))
       ∧ (∀ m, ∃ e', switch_key ParseFloat Unmarshal key str (Some m)
                     = Returns (inr (BadMetadataItem key (BadFloats str e'))))
       ∧ (∀ env h d p rows md,
            pool d = Some p →
            go_sql.on_pool (disk env) h p go_sql.metadata_rows = inl rows →
            [Some key; Some str] ∈ rows →
            ReadMetadata ParseFloat Unmarshal env h (Some d) ≠ Returns (md, None)))
  ∧ (ParseFloat "-1.5" = ((-1.5)%float, None) → ParseFloat "2.25" = (2.25%float, None) →
     ParseFloat "10" = (10%float, None) → ParseFloat "-3" = ((-3)%float, None) →
     parseFloats ParseFloat "-1.5, 2.25,10,-3"
     = ([(-1.5)%float; 2.25%float; 10%float; (-3)%float], None)).
Proof.
  intros Hkey.
  assert (Hswitch : ∀ m, switch_key ParseFloat Unmarshal key str (Some m)
            = match parseFloats ParseFloat str with
              | (out, Some e) => Returns (inr (BadMetadataItem key e))
              | (out, None) => Returns (inl (Some (<[key := VFloat64s out]> m)))
              end).
  { intros m. unfold switch_key.
    rewrite (floats_key_not_zoom _ Hkey), bool_decide_eq_true_2 by assumption.
    now destruct (parseFloats ParseFloat str) as [out [e|]]. }
  split; [|split; [|split]].
  - intros vs. split.
    + intros H. unfold parseFloats.
      now rewrite (parseFloats_range_parsed _ _ _ _ _ H).
    + unfold parseFloats. intros (vs' & -> & H)%parseFloats_range_inv. exact H.
  - intros vs m H. now rewrite Hswitch, H.
  - intros field v e Hin Hv.
    destruct (parseFloats_range_failed ParseFloat str _ [] _ _ _ Hin Hv)
      as (out & e' & Hfail).
    fold (parseFloats ParseFloat str) in Hfail. split; [eauto|]. split.
    + intros m. exists e'. now rewrite Hswitch, Hfail.
    + intros env h d p rows md Hp Hrows Hrow. unfold ReadMetadata, getConnection.
      rewrite Hp, Hrows.
      destruct (scan_rows ParseFloat Unmarshal rows "" "" (Some ∅))
        as [[md'|e1]|why] eqn:Hloop; [|discriminate|discriminate].
      apply (scan_rows_floats _ _ _ _ _ _ _ _ _ Hloop Hrow) in Hkey.
      rewrite Hfail in Hkey. discriminate.
  - intros H1 H2 H3 H4. unfold parseFloats.
    apply (parseFloats_range_parsed ParseFloat _ _ []).
    repeat constructor; assumption.
Qed.

Lemma bounds_and_center_witness :
  parseFloats Sample.ParseFloat "-1.5, 2.25,10,-3"
  = ([(-1.5)%float; 2.25%float; 10%float; (-3)%float], None).
Proof.
  apply (bounds_and_center Sample.ParseFloat Sample.Unmarshal "bounds"
           "-1.5, 2.25,10,-3");
    [constructor | ..]; reflexivity.
Defined.

(** The query of the zoom range returns the least and the greatest zoom
    level of the rows of tiles. *)
Lemma foldr_min_max (z : Z) (zs : list Z) :
  (foldr Z.min z zs ∈ z :: zs ∧ ∀ x, x ∈ z :: zs → foldr Z.min z zs ≤ x)
  ∧ (foldr Z.max z zs ∈ z :: zs ∧ ∀ x, x ∈ z :: zs → x ≤ foldr Z.max z zs).
Proof.
  induction zs as [|a zs [[Hmin Hle] [Hmax Hge]]]; simpl.
  - repeat split; try (now left); intros x ->%list_elem_of_singleton; lia.
  - assert (Hin : ∀ x, x ∈ z :: zs → x ∈ z :: a :: zs).
    { intros x [->|Hx]%elem_of_cons; [now left | now do 2 right]. }
    assert (Hcases : ∀ x, x ∈ z :: a :: zs → x = a ∨ x ∈ z :: zs).
    { intros x [->|[->|Hx]%elem_of_cons]%elem_of_cons;
        [right; now left | now left | right; now right]. }
    repeat split.
    + destruct (Z.min_spec a (foldr Z.min z zs)) as [[_ ->]|[_ ->]];
        [right; now left | now apply Hin].
    + intros x [->|Hx]%Hcases; [lia | specialize (Hle x Hx); lia].
    + destruct (Z.max_spec a (foldr Z.max z zs)) as [[_ ->]|[_ ->]];
        [now apply Hin | right; now left].
    + intros x [->|Hx]%Hcases; [lia | specialize (Hge x Hx); lia].
Qed.

Lemma zoom_range_extremes (c : go_sql.Database) (minZoom maxZoom : Z) :
  go_sql.zoom_range c = inl (minZoom, maxZoom) →
  (∃ r, r ∈ go_sql.tiles c ∧ go_sql.zoom_level r = minZoom)
  ∧ (∃ r, r ∈ go_sql.tiles c ∧ go_sql.zoom_level r = maxZoom)
  ∧ (∀ r, r ∈ go_sql.tiles c → minZoom ≤ go_sql.zoom_level r ≤ maxZoom).
Proof.
  unfold go_sql.zoom_range, go_sql.answer.
  destruct (go_sql.fault c go_sql.QZoomRange); [discriminate|].
  destruct (go_sql.has_relation c "tiles"); [|discriminate].
  destruct (map go_sql.zoom_level (go_sql.tiles c)) as [|z zs] eqn:Hmap; [discriminate|].
  intros [= <- <-]. destruct (foldr_min_max z zs) as [[Hmin Hle] [Hmax Hge]].
  rewrite <- Hmap in Hmin, Hle, Hmax, Hge. repeat split.
  - apply list_elem_of_fmap in Hmin as (r & Hr & Hin). eauto.
  - apply list_elem_of_fmap in Hmax as (r & Hr & Hin). eauto.
  - apply Hle. now apply list_elem_of_fmap_2.
  - apply Hge. now apply list_elem_of_fmap_2.
Qed.

(** When the query of the zoom range fails, the decoded mapping is
    returned as it is, with a nil error. *)
Lemma supplement_best_effort env h con metadata e :
  has_key metadata "minzoom" && has_key metadata "maxzoom" = false →
  go_sql.on_pool (disk env) h con go_sql.zoom_range = inr e →
  supplement env h con metadata = Returns (metadata, None).
Proof. intros Hkeys Hq. unfold supplement. now rewrite Hkeys, Hq. Qed.

(** When both keys were decoded, the mapping is returned as it is and the
    tiles are not asked. *)
Lemma supplement_complete env h con metadata :
  has_key metadata "minzoom" && has_key metadata "maxzoom" = true →
  supplement env h con metadata = Returns (metadata, None).
Proof. intros Hkeys. unfold supplement. now rewrite Hkeys. Qed.

(** C1. When one of minzoom and maxzoom is absent from the decoded
    mapping and the query of the zoom range succeeds, [ReadMetadata]
    assigns both keys from the query: a zoom level that was read from the
    table and parsed is replaced as well. The other keys are as decoded. *)
Theorem ReadMetadata_replaces_parsed_zoom ParseFloat Unmarshal env h d p rows m
    minZoom maxZoom :
  pool d = Some p →
  go_sql.on_pool (disk env) h p go_sql.metadata_rows = inl rows →
  scan_rows ParseFloat Unmarshal rows "" "" (Some ∅) = Returns (inl (Some m)) →
  has_key (Some m) "minzoom" && has_key (Some m) "maxzoom" = false →
  go_sql.on_pool (disk env) h p go_sql.zoom_range = inl (minZoom, maxZoom) →
  ∃ m', ReadMetadata ParseFloat Unmarshal env h (Some d) = Returns (Some m', None)
        ∧ m' !! "minzoom" = Some (VInt minZoom)
        ∧ m' !! "maxzoom" = Some (VInt maxZoom)
        ∧ (∀ k, k ≠ "minzoom" → k ≠ "maxzoom" → m' !! k = m !! k).
Proof.
  intros Hp Hrows Hloop Hkeys Hrange.
  exists (<["maxzoom" := VInt maxZoom]> (<["minzoom" := VInt minZoom]> m)).
  repeat split.
  - unfold ReadMetadata, getConnection. rewrite Hp, Hrows, Hloop.
    unfold supplement. now rewrite Hkeys, Hrange.
  - now rewrite lookup_insert_ne, lookup_insert_eq.
  - now rewrite lookup_insert_eq.
  - intros k Hmin Hmax. now rewrite !lookup_insert_ne.
Qed.

Lemma ReadMetadata_replaces_parsed_zoom_witness :
  ∃ m', ReadMetadata Sample.ParseFloat Sample.Unmarshal
          (Sample.one_file (Sample.tileset [Sample.text_row "minzoom" "5"]) false)
          Sample.opened_heap (Some Sample.opened)
        = Returns (Some m', None)
        ∧ m' !! "minzoom" = Some (VInt 3)
        ∧ m' !! "maxzoom" = Some (VInt 9)
        ∧ (∀ k, k ≠ "minzoom" → k ≠ "maxzoom"
                → m' !! k = ({[ "minzoom" := VInt 5 ]} : gmap string value) !! k).
Proof.
  apply (ReadMetadata_replaces_parsed_zoom Sample.ParseFloat Sample.Unmarshal
           (Sample.one_file (Sample.tileset [Sample.text_row "minzoom" "5"]) false)
           Sample.opened_heap Sample.opened 0%nat
           [[Some "minzoom"; Some "5"]] {[ "minzoom" := VInt 5 ]} 3 9);
    reflexivity.
Defined.

(** With neither key in the table and tiles at the zoom levels 3 and 9
    only, the mapping has minzoom 3 and maxzoom 9. *)
Lemma ReadMetadata_infers_3_and_9 ParseFloat Unmarshal :
  ReadMetadata ParseFloat Unmarshal
    (Sample.one_file (Sample.tileset [Sample.text_row "name" "x"]) false)
    Sample.opened_heap (Some Sample.opened)
  = Returns (Some (<["maxzoom" := VInt 9]>
                     (<["minzoom" := VInt 3]> {[ "name" := VString "x" ]})), None).
Proof. reflexivity. Qed.

(** ** Scanning the rows of metadata *)

(** C10, as amended. [ReadMetadata] drops the result of [Scan]: the loop
    never returns the error of a scan. [Scan] assigns the key before the
    value and stops at the first cell it cannot convert. A row whose scan
    fails at the value is processed with its own key and the value of
    the iteration before; a row whose scan fails at the key, or that has
    another number of columns than two, is processed with the key and
    the value of the iteration before, which at the first row are empty
    strings and are stored as such. *)
Theorem failed_scan_processing ParseFloat Unmarshal r rows key value metadata e :
  (go_sql.Scan2 r key value).2 = Some e →
  ∃ key',
    (go_sql.Scan2 r key value).1 = (key', value)
    ∧ ((r = [Some key'; None] ∧ e = ErrScan 1) ∨ (key' = key ∧ e ≠ ErrScan 1))
    ∧ scan_rows ParseFloat Unmarshal (r :: rows) key value metadata
      = match switch_key ParseFloat Unmarshal key' value metadata with
        | Returns (inl md) => scan_rows ParseFloat Unmarshal rows key' value md
        | stop => stop
        end
    ∧ (∀ e', scan_rows ParseFloat Unmarshal (r :: rows) key value metadata
             ≠ Returns (inr (SqlError e')))
    ∧ (∀ m, key' = "" → value = "" → metadata = Some m →
         scan_rows ParseFloat Unmarshal (r :: rows) key value metadata
         = scan_rows ParseFloat Unmarshal rows "" "" (Some (<["" := VString ""]> m))).
Proof.
  intros Hscan.
  assert (Herr : ∀ e', scan_rows ParseFloat Unmarshal (r :: rows) key value metadata
                       ≠ Returns (inr (SqlError e'))).
  { intros e' [(k & c & H)|(c & H)]%scan_rows_errors; discriminate. }
  assert (Hcases : ∃ key', go_sql.Scan2 r key value = ((key', value), Some e)
            ∧ ((r = [Some key'; None] ∧ e = ErrScan 1) ∨ (key' = key ∧ e ≠ ErrScan 1))).
  { destruct r as [|[k|] [|[v|] [|c r]]]; simpl in Hscan |- *;
      try discriminate; injection Hscan as <-;
      first [ exists k; split; [reflexivity|left; now split]
            | exists key; split; [reflexivity|right; now split] ]. }
  destruct Hcases as (key' & Hk & Hor). exists key'.
  split; [now rewrite Hk|]. split; [exact Hor|]. split; [|split; [exact Herr|]].
  - simpl. now rewrite Hk.
  - intros m -> -> ->. simpl. now rewrite Hk.
Qed.

Lemma failed_scan_processing_witness :
  ∃ key',
    (go_sql.Scan2 [Some "minzoom"; None] "name" "hello").1 = (key', "hello")
    ∧ (([Some "minzoom"; None] = [Some key'; None] ∧ ErrScan 1 = ErrScan 1)
       ∨ (key' = "name" ∧ ErrScan 1 ≠ ErrScan 1))
    ∧ scan_rows Sample.ParseFloat Sample.Unmarshal [[Some "minzoom"; None]]
        "name" "hello" (Some ∅)
      = match switch_key Sample.ParseFloat Sample.Unmarshal key' "hello" (Some ∅) with
        | Returns (inl md) =>
            scan_rows Sample.ParseFloat Sample.Unmarshal [] key' "hello" md
        | stop => stop
        end
    ∧ (∀ e', scan_rows Sample.ParseFloat Sample.Unmarshal [[Some "minzoom"; None]]
               "name" "hello" (Some ∅)
             ≠ Returns (inr (SqlError e')))
    ∧ (∀ m, key' = "" → "hello" = "" → Some (∅ : gmap string value) = Some m →
         scan_rows Sample.ParseFloat Sample.Unmarshal [[Some "minzoom"; None]]
           "name" "hello" (Some ∅)
         = scan_rows Sample.ParseFloat Sample.Unmarshal [] "" ""
             (Some (<["" := VString ""]> m))).
Proof.
  apply (failed_scan_processing Sample.ParseFloat Sample.Unmarshal
           [Some "minzoom"; None] [] "name" "hello" (Some ∅) (ErrScan 1)).
  reflexivity.
Defined.

(** C10, as stated, fails. In a table with the rows (name, hello) and
    (minzoom, NULL) the scan of the second row fails at the value; the row
    is processed with its own key minzoom and the value hello of the row
    before, which is no integer, and [ReadMetadata] returns an error;
    with the key and the value of the row before it would have succeeded. *)
Lemma failed_scan_not_left_over :
  ReadMetadata Sample.ParseFloat Sample.Unmarshal
    (Sample.one_file
       (Sample.tileset
          [ Sample.text_row "name" "hello";
            {| go_sql.meta_name := Some "minzoom"; go_sql.meta_value := None;
               go_sql.meta_more := [] |} ]) false)
    Sample.opened_heap (Some Sample.opened)
  = Returns (None, Some (BadMetadataItem "minzoom" (AtoiError "hello" ErrSyntax)))
  ∧ ¬ (∀ r rows key value metadata,
         (go_sql.Scan2 r key value).2 ≠ None →
         scan_rows Sample.ParseFloat Sample.Unmarshal (r :: rows) key value metadata
         = match switch_key Sample.ParseFloat Sample.Unmarshal key value metadata with
           | Returns (inl md) =>
               scan_rows Sample.ParseFloat Sample.Unmarshal rows key value md
           | stop => stop
           end).
Proof.
  split; [reflexivity|]. intros H.
  specialize (H [Some "minzoom"; None] [] "name" "hello" (Some ∅)
                ltac:(discriminate)).
  vm_compute in H. discriminate.
Qed.

(** * Further properties of the code *)

(** ** FindMBtiles *)

(** While no visit carries an error, the walk appends the paths that pass
    the test, in the order of the visits. *)
Lemma Walk_without_errors (env : Env) fn (pre rest : list (string * option os_error))
    (acc : list string) :
  (∀ p err filenames, fn p err filenames
     = match err with
       | Some e => (filenames, Some (OsError e))
       | None => (if keeps env p then (filenames ++ [p])%list else filenames, None)
       end) →
  Forall (fun v => v.2 = None) pre →
  go_filepath.Walk (pre ++ rest)%list fn acc
  = go_filepath.Walk rest fn (acc ++ List.filter (keeps env) (map fst pre))%list.
Proof.
  intros Hfn Hpre. revert acc.
  induction Hpre as [|[p err] pre Herr _ IH]; intros acc; simpl.
  - now rewrite app_nil_r.
  - simpl in Herr. subst err. rewrite Hfn.
    destruct (keeps env p); rewrite IH; [now rewrite <- app_assoc | reflexivity].
Qed.

Lemma FindMBtiles_fn (env : Env) (p : string) (err : option os_error)
    (filenames : list string) :
  match err with
  | Some e => (filenames, Some (OsError e))
  | None =>
      match stat env (p +:+ "-journal") with
      | inl _ => (filenames, None)
      | inr _ =>
          if String.eqb (go_filepath.Ext p) ".mbtiles"
          then ((filenames ++ [p])%list, None)
          else (filenames, None)
      end
  end
  = match err with
    | Some e => (filenames, Some (OsError e))
    | None => (if keeps env p then (filenames ++ [p])%list else filenames, None)
    end.
Proof.
  unfold keeps. destruct err; [reflexivity|].
  destruct (stat env (p +:+ "-journal")); [reflexivity|].
  now destruct (String.eqb _ _).
Qed.

(** X1. When the walk meets no error, [FindMBtiles] returns, in the order
    of the walk, exactly the visited paths that have the extension
    .mbtiles and no -journal file next to them, with a nil error. *)
Theorem FindMBtiles_without_errors (env : Env) (root : string) :
  Forall (fun v => v.2 = None) (walk env root) →
  FindMBtiles env root = (List.filter (keeps env) (map fst (walk env root)), None).
Proof.
  intros Hwalk. unfold FindMBtiles.
  rewrite <- (app_nil_r (walk env root)).
  rewrite (Walk_without_errors env _ _ [] [] (FindMBtiles_fn env) Hwalk).
  simpl. now rewrite app_nil_r.
Qed.

Lemma FindMBtiles_without_errors_witness :
  FindMBtiles (Sample.one_file (Sample.tileset []) false) "."
  = (List.filter (keeps (Sample.one_file (Sample.tileset []) false))
       (map fst (walk (Sample.one_file (Sample.tileset []) false) ".")), None).
Proof.
  apply (FindMBtiles_without_errors (Sample.one_file (Sample.tileset []) false) ".").
  repeat constructor.
Defined.

(** X2. The first error of the walk ends [FindMBtiles]: the result is the
    nil list and that error, whatever was found before it. *)
Theorem FindMBtiles_first_error (env : Env) (root p : string) (e : os_error)
    (pre post : list (string * option os_error)) :
  walk env root = (pre ++ (p, Some e) :: post)%list →
  Forall (fun v => v.2 = None) pre →
  FindMBtiles env root = ([], Some (OsError e)).
Proof.
  intros Hwalk Hpre. unfold FindMBtiles. rewrite Hwalk.
  now rewrite (Walk_without_errors env _ _ _ [] (FindMBtiles_fn env) Hpre).
Qed.

Lemma FindMBtiles_first_error_witness :
  FindMBtiles MoreSamples.unreadable_subdirectory "." = ([], Some (OsError ErrPermission)).
Proof.
  apply (FindMBtiles_first_error MoreSamples.unreadable_subdirectory "." "sub"
           ErrPermission [("a.mbtiles", None)] [("z.mbtiles", None)]).
  - reflexivity.
  - repeat constructor.
Defined.

(** ** Open *)

(** A statement run on the pool that [sql.Open] has just made runs on the
    container at the path. *)
Lemma on_pool_fresh {A} (disk : string → go_sql.Database) (h : go_sql.Heap)
    (path : string) (ss : list go_sql.stmt_state) (run : go_sql.Database → A + sql_error) :
  go_sql.on_pool disk
    {| go_sql.pools :=
         go_sql.pools h ++ [{| go_sql.pool_path := path; go_sql.pool_closed := false |}];
       go_sql.stmts := ss |}
    (length (go_sql.pools h)) run
  = run (disk path).
Proof.
  unfold go_sql.on_pool. simpl. now rewrite list_lookup_middle by reflexivity.
Qed.

Ltac open_cases H :=
  repeat match type of H with
         | context [match ?x with _ => _ end] => destruct x eqn:?
         | context [if ?x then _ else _] => destruct x eqn:?
         end.

(** X3. A failed [Open] leaves the heap as it was when it fails at the
    file, at the journal or in [sql.Open]; when it fails later, the pool
    it has opened stays on the heap, open, and with it at most one
    statement, open as well: no error path closes them. *)
Theorem Open_failure_heap detectTileFormat detectTileSize env path h db e h' :
  Open detectTileFormat detectTileSize env path h = ((db, Some e), h') →
  match stat env path, stat env (path +:+ "-journal"), driver_refuses env path with
  | inl _, inr _, None =>
      go_sql.pools h'
      = (go_sql.pools h
         ++ [{| go_sql.pool_path := path; go_sql.pool_closed := false |}])%list
      ∧ (go_sql.stmts h' = go_sql.stmts h
         ∨ go_sql.stmts h'
           = (go_sql.stmts h ++ [{| go_sql.stmt_pool := length (go_sql.pools h);
                                    go_sql.stmt_closed := false |}])%list)
  | _, _, _ => h' = h
  end.
Proof.
  unfold Open, go_sql.Open, getConnection, go_sql.Prepare. intros H.
  destruct (stat env path) as [info|e0];
    [|destruct (is_not_exist e0); now injection H as _ _ <-].
  destruct (stat env (path +:+ "-journal")) as [?|ej]; [now injection H as _ _ <-|].
  destruct (driver_refuses env path); [now injection H as _ _ <-|].
  destruct (validateRequiredTables _ _ _); [injection H as _ _ <-; simpl; auto|].
  destruct (getTileFormatAndSize _ _ _ _ _) as [[f n] [e1|]];
    [injection H as _ _ <-; simpl; auto|].
  destruct (go_sql.on_pool _ _ _ go_sql.prepare_tile) as [[]|e1];
    [|injection H as _ _ <-; simpl; auto].
  destruct (go_sql.on_pool _ _ _ go_sql.prepare_tile) as [[]|e2]; [discriminate|].
  injection H as _ _ <-. simpl. auto.
Qed.

Lemma Open_failure_heap_witness :
  go_sql.pools
    {| go_sql.pools := [{| go_sql.pool_path := "foo.mbtiles"; go_sql.pool_closed := false |}];
       go_sql.stmts := [] |}
  = ([] ++ [{| go_sql.pool_path := "foo.mbtiles"; go_sql.pool_closed := false |}])%list
  ∧ (go_sql.stmts
       {| go_sql.pools :=
            [{| go_sql.pool_path := "foo.mbtiles"; go_sql.pool_closed := false |}];
          go_sql.stmts := [] |}
     = []
     ∨ go_sql.stmts
         {| go_sql.pools :=
              [{| go_sql.pool_path := "foo.mbtiles"; go_sql.pool_closed := false |}];
            go_sql.stmts := [] |}
       = ([] ++ [{| go_sql.stmt_pool := 0%nat; go_sql.stmt_closed := false |}])%list).
Proof.
  apply (Open_failure_heap FormatSniffer.detectTileFormat FormatSniffer.detectTileSize
           (Sample.one_file (MoreSamples.without_tiles []) false) "foo.mbtiles"
           go_sql.empty_heap None (SqlError ErrNoRows)).
  reflexivity.
Defined.

(** X4. [Open] returns a handle or an error, never both and never
    neither. *)
Theorem Open_handle_or_error detectTileFormat detectTileSize env path h :
  (∃ d, (Open detectTileFormat detectTileSize env path h).1 = (Some d, None))
  ∨ (∃ e, (Open detectTileFormat detectTileSize env path h).1 = (None, Some e)).
Proof.
  destruct (Open detectTileFormat detectTileSize env path h) as [[db err] h'] eqn:H.
  simpl. destruct err as [e|].
  - right. exists e. now rewrite (Open_failure _ _ _ _ _ _ _ _ H).
  - left. revert H. unfold Open, go_sql.Open, getConnection, go_sql.Prepare. intros H.
    open_cases H; simplify_eq/=; eauto.
Qed.

(** X5. The handle of a successful [Open] carries the path it was given,
    and the format and the tile size that the first row of tiles of the
    container at that path gives: the format the sniffer detects, with
    GZIP replaced by PBF, and the size the sniffer detects for that
    format. *)
Theorem Open_classifies_first_tile detectTileFormat detectTileSize env path h db h' :
  Open detectTileFormat detectTileSize env path h = ((Some db, None), h') →
  GetFilename db = path
  ∧ ∃ data f,
      go_sql.first_tile (disk env path) = inl data
      ∧ detectTileFormat data = (f, None)
      ∧ GetTileFormat db = match f with GZIP => PBF | _ => f end
      ∧ detectTileSize (GetTileFormat db) data = (GetTileSize db, None).
Proof.
  unfold Open, go_sql.Open, getConnection, go_sql.Prepare, getTileFormatAndSize.
  intros H.
  destruct (stat env path) as [info|e0]; [|destruct (is_not_exist e0); discriminate].
  destruct (stat env (path +:+ "-journal")); [discriminate|].
  destruct (driver_refuses env path); [discriminate|].
  destruct (validateRequiredTables _ _ _); [discriminate|].
  rewrite on_pool_fresh in H.
  destruct (go_sql.first_tile (disk env path)) as [data|e0]; [|discriminate].
  destruct (detectTileFormat data) as [f [e0|]] eqn:Hf; [discriminate|].
  destruct (detectTileSize _ data) as [n [e0|]] eqn:Hn; [discriminate|].
  destruct (go_sql.on_pool _ _ _ go_sql.prepare_tile) as [[]|e1]; [|discriminate].
  destruct (go_sql.on_pool _ _ _ go_sql.prepare_tile) as [[]|e2]; [|discriminate].
  injection H as <- _.
  split; [reflexivity|]. exists data, f. now repeat split.
Qed.

Lemma Open_classifies_first_tile_witness :
  GetFilename Sample.opened = "foo.mbtiles"
  ∧ ∃ data f,
      go_sql.first_tile (disk (Sample.one_file (Sample.tileset []) false) "foo.mbtiles")
      = inl data
      ∧ FormatSniffer.detectTileFormat data = (f, None)
      ∧ GetTileFormat Sample.opened = match f with GZIP => PBF | _ => f end
      ∧ FormatSniffer.detectTileSize (GetTileFormat Sample.opened) data
        = (GetTileSize Sample.opened, None).
Proof.
  apply (Open_classifies_first_tile FormatSniffer.detectTileFormat
           FormatSniffer.detectTileSize (Sample.one_file (Sample.tileset []) false)
           "foo.mbtiles" go_sql.empty_heap Sample.opened Sample.opened_heap).
  reflexivity.
Defined.

Lemma has_relation_table (c : go_sql.Database) (name : string) :
  {| go_sql.obj_type := go_sql.table; go_sql.obj_name := name |} ∈ go_sql.sqlite_master c →
  go_sql.has_relation c name = true.
Proof.
  intros Hin. unfold go_sql.has_relation. apply existsb_exists.
  exists {| go_sql.obj_type := go_sql.table; go_sql.obj_name := name |}.
  split; [now apply list_elem_of_In|]. simpl. apply String.eqb_refl.
Qed.

(** X6. A container that has both tables and no row of tiles cannot be
    opened: [Open] returns [sql.ErrNoRows] as it comes from the query of
    the first tile, and leaves the pool it has opened on the heap. *)
Theorem Open_without_tiles detectTileFormat detectTileSize env path h info ej :
  stat env path = inl info →
  stat env (path +:+ "-journal") = inr ej →
  driver_refuses env path = None →
  go_sql.fault (disk env path) go_sql.QTableCount = None →
  go_sql.fault (disk env path) go_sql.QFirstTile = None →
  {| go_sql.obj_type := go_sql.table; go_sql.obj_name := "tiles" |}
    ∈ go_sql.sqlite_master (disk env path) →
  {| go_sql.obj_type := go_sql.table; go_sql.obj_name := "metadata" |}
    ∈ go_sql.sqlite_master (disk env path) →
  go_sql.tiles (disk env path) = [] →
  Open detectTileFormat detectTileSize env path h
  = ((None, Some (SqlError ErrNoRows)),
     {| go_sql.pools :=
          go_sql.pools h ++ [{| go_sql.pool_path := path; go_sql.pool_closed := false |}];
        go_sql.stmts := go_sql.stmts h |}).
Proof.
  intros Hstat Hj Hdrv Hf1 Hf2 Ht Hm Hempty.
  unfold Open, go_sql.Open, getConnection. rewrite Hstat, Hj, Hdrv.
  rewrite (validateRequiredTables_both env _ (length (go_sql.pools h))
             {| go_sql.pool_path := path; go_sql.pool_closed := false |});
    try assumption; try reflexivity;
    [|simpl; now rewrite list_lookup_middle by reflexivity].
  unfold getTileFormatAndSize. rewrite on_pool_fresh.
  unfold go_sql.first_tile, go_sql.answer.
  now rewrite Hf2, (has_relation_table _ _ Ht), Hempty.
Qed.

Lemma Open_without_tiles_witness :
  Open FormatSniffer.detectTileFormat FormatSniffer.detectTileSize
    (Sample.one_file (MoreSamples.without_tiles []) false) "foo.mbtiles" go_sql.empty_heap
  = ((None, Some (SqlError ErrNoRows)),
     {| go_sql.pools :=
          go_sql.pools go_sql.empty_heap
          ++ [{| go_sql.pool_path := "foo.mbtiles"; go_sql.pool_closed := false |}];
        go_sql.stmts := go_sql.stmts go_sql.empty_heap |}).
Proof.
  apply (Open_without_tiles FormatSniffer.detectTileFormat FormatSniffer.detectTileSize
           (Sample.one_file (MoreSamples.without_tiles []) false) "foo.mbtiles"
           go_sql.empty_heap {| ModTime := 1500000000; IsDir := false |} ErrNotExist);
    try reflexivity; simpl; repeat constructor.
Defined.

(** ** Open, Close and ReadTile together *)

(** X7. [Open] prepares the point lookup twice and the handle keeps the
    second statement only. After [Open] and [Close] the heap holds what
    it held before, the pool of the handle, closed, and the two
    statements: the first still open, the second closed. *)
Theorem Open_then_Close_heap detectTileFormat detectTileSize env path h db h1 h2 :
  Open detectTileFormat detectTileSize env path h = ((Some db, None), h1) →
  Close (Some db) h1 = Returns h2 →
  go_sql.pools h2
  = (go_sql.pools h ++ [{| go_sql.pool_path := path; go_sql.pool_closed := true |}])%list
  ∧ go_sql.stmts h2
    = (go_sql.stmts h
       ++ [ {| go_sql.stmt_pool := length (go_sql.pools h); go_sql.stmt_closed := false |};
            {| go_sql.stmt_pool := length (go_sql.pools h); go_sql.stmt_closed := true |} ])%list.
Proof.
  intros (info & _ & _ & _ & Hpool & Hstmt & _ & _ & ->)%Open_success.
  unfold Close. rewrite Hpool, Hstmt. intros [= <-]. simpl. split.
  - rewrite <- (Nat.add_0_r (length (go_sql.pools h))) at 1.
    now rewrite alter_app_r.
  - rewrite <- app_assoc. simpl.
    replace (S (length (go_sql.stmts h))) with (length (go_sql.stmts h) + 1)%nat by lia.
    now rewrite alter_app_r.
Qed.

Lemma Open_then_Close_heap_witness :
  go_sql.pools Sample.closed_heap
  = (go_sql.pools go_sql.empty_heap
     ++ [{| go_sql.pool_path := "foo.mbtiles"; go_sql.pool_closed := true |}])%list
  ∧ go_sql.stmts Sample.closed_heap
    = (go_sql.stmts go_sql.empty_heap
       ++ [ {| go_sql.stmt_pool := length (go_sql.pools go_sql.empty_heap);
               go_sql.stmt_closed := false |};
            {| go_sql.stmt_pool := length (go_sql.pools go_sql.empty_heap);
               go_sql.stmt_closed := true |} ])%list.
Proof.
  apply (Open_then_Close_heap FormatSniffer.detectTileFormat FormatSniffer.detectTileSize
           (Sample.one_file (Sample.tileset []) false) "foo.mbtiles"
           go_sql.empty_heap Sample.opened Sample.opened_heap Sample.closed_heap);
    reflexivity.
Defined.

(** Where the handle of a successful [Open] points to. *)
Lemma heap_after_Open_lookup (path : string) (h : go_sql.Heap) :
  go_sql.stmts (heap_after_Open path h) !! S (length (go_sql.stmts h))
  = Some {| go_sql.stmt_pool := length (go_sql.pools h); go_sql.stmt_closed := false |}
  ∧ go_sql.pools (heap_after_Open path h) !! length (go_sql.pools h)
    = Some {| go_sql.pool_path := path; go_sql.pool_closed := false |}.
Proof.
  unfold heap_after_Open. simpl. split.
  - apply list_lookup_middle. rewrite length_app. simpl. lia.
  - now apply list_lookup_middle.
Qed.

(** [Close] touches the statement and the pool of its handle only. *)
Lemma Close_frame (d : MBtiles) (h h' : go_sql.Heap) :
  Close (Some d) h = Returns h' →
  (∀ s, tileStmt d ≠ Some s → go_sql.stmts h' !! s = go_sql.stmts h !! s)
  ∧ (∀ p, pool d ≠ Some p → go_sql.pools h' !! p = go_sql.pools h !! p).
Proof.
  unfold Close. intros [= <-]. split.
  - intros s Hs. destruct (tileStmt d) as [s'|], (pool d); simpl; try reflexivity;
      apply list_lookup_alter_ne; congruence.
  - intros p Hp. destruct (pool d) as [p'|], (tileStmt d); simpl; try reflexivity;
      apply list_lookup_alter_ne; congruence.
Qed.

(** X8. Two handles that were opened one after the other are
    independent: closing the first changes no read through the second,
    neither of a tile nor of the metadata. *)
Theorem Close_keeps_other_handle detectTileFormat detectTileSize ParseFloat Unmarshal
    env path1 path2 h d1 h1 d2 h2 h3 :
  Open detectTileFormat detectTileSize env path1 h = ((Some d1, None), h1) →
  Open detectTileFormat detectTileSize env path2 h1 = ((Some d2, None), h2) →
  Close (Some d1) h2 = Returns h3 →
  (∀ z x y data,
     ReadTile env h3 (Some d2) z x y data = ReadTile env h2 (Some d2) z x y data)
  ∧ ReadMetadata ParseFloat Unmarshal env h3 (Some d2)
    = ReadMetadata ParseFloat Unmarshal env h2 (Some d2).
Proof.
  intros (_ & _ & _ & _ & Hp1 & Hs1 & _ & _ & Hh1)%Open_success
         (_ & _ & _ & _ & Hp2 & Hs2 & _ & _ & ->)%Open_success
         [Hstmts Hpools]%Close_frame.
  assert (Hlen : length (go_sql.pools h1) = S (length (go_sql.pools h))
                 ∧ length (go_sql.stmts h1) = S (S (length (go_sql.stmts h)))).
  { rewrite Hh1. simpl. rewrite !length_app. simpl. lia. }
  destruct Hlen as [Hlp Hls].
  assert (Hne_s : tileStmt d1 ≠ Some (S (length (go_sql.stmts h1)))).
  { rewrite Hs1. intros [= ?]. lia. }
  assert (Hne_p : pool d1 ≠ Some (length (go_sql.pools h1))).
  { rewrite Hp1. intros [= ?]. lia. }
  destruct (heap_after_Open_lookup path2 h1) as [Hst Hps].
  split.
  - intros z x y data. unfold ReadTile, go_sql.on_stmt, go_sql.on_pool.
    rewrite Hs2, (Hstmts _ Hne_s). unfold go_sql.Stmt, go_sql.DB in *.
    rewrite Hst. simpl. now rewrite (Hpools _ Hne_p).
  - unfold ReadMetadata, supplement, getConnection, go_sql.on_pool.
    now rewrite Hp2, (Hpools _ Hne_p).
Qed.

Lemma Close_keeps_other_handle_witness :
  (∀ z x y data,
     ReadTile (Sample.one_file (Sample.tileset []) false)
       {| go_sql.pools :=
            [ {| go_sql.pool_path := "foo.mbtiles"; go_sql.pool_closed := true |};
              {| go_sql.pool_path := "foo.mbtiles"; go_sql.pool_closed := false |} ];
          go_sql.stmts :=
            [ {| go_sql.stmt_pool := 0%nat; go_sql.stmt_closed := false |};
              {| go_sql.stmt_pool := 0%nat; go_sql.stmt_closed := true |};
              {| go_sql.stmt_pool := 1%nat; go_sql.stmt_closed := false |};
              {| go_sql.stmt_pool := 1%nat; go_sql.stmt_closed := false |} ] |}
       (Some MoreSamples.opened_again) z x y data
     = ReadTile (Sample.one_file (Sample.tileset []) false) MoreSamples.opened_twice_heap
         (Some MoreSamples.opened_again) z x y data)
  ∧ ReadMetadata Sample.ParseFloat Sample.Unmarshal
      (Sample.one_file (Sample.tileset []) false)
      {| go_sql.pools :=
           [ {| go_sql.pool_path := "foo.mbtiles"; go_sql.pool_closed := true |};
             {| go_sql.pool_path := "foo.mbtiles"; go_sql.pool_closed := false |} ];
         go_sql.stmts :=
           [ {| go_sql.stmt_pool := 0%nat; go_sql.stmt_closed := false |};
             {| go_sql.stmt_pool := 0%nat; go_sql.stmt_closed := true |};
             {| go_sql.stmt_pool := 1%nat; go_sql.stmt_closed := false |};
             {| go_sql.stmt_pool := 1%nat; go_sql.stmt_closed := false |} ] |}
      (Some MoreSamples.opened_again)
    = ReadMetadata Sample.ParseFloat Sample.Unmarshal
        (Sample.one_file (Sample.tileset []) false) MoreSamples.opened_twice_heap
        (Some MoreSamples.opened_again).
Proof.
  apply (Close_keeps_other_handle FormatSniffer.detectTileFormat
           FormatSniffer.detectTileSize Sample.ParseFloat Sample.Unmarshal
           (Sample.one_file (Sample.tileset []) false) "foo.mbtiles" "foo.mbtiles"
           go_sql.empty_heap Sample.opened Sample.opened_heap
           MoreSamples.opened_again MoreSamples.opened_twice_heap);
    reflexivity.
Defined.

(** X9. On a handle that is not nil [Close] returns, a second [Close]
    changes nothing, and no pool or statement is added or removed. *)
Theorem Close_twice (d : MBtiles) (h : go_sql.Heap) :
  ∃ h1, Close (Some d) h = Returns h1
        ∧ Close (Some d) h1 = Returns h1
        ∧ length (go_sql.pools h1) = length (go_sql.pools h)
        ∧ length (go_sql.stmts h1) = length (go_sql.stmts h)
        ∧ map go_sql.pool_path (go_sql.pools h1) = map go_sql.pool_path (go_sql.pools h).
Proof.
  destruct (Close_handle d h) as [h1 H1]. exists h1.
  split; [exact H1|]. split; [now apply (Close_idempotent d h)|].
  revert H1. unfold Close. intros [= <-].
  destruct (tileStmt d), (pool d); simpl; rewrite ?length_alter; repeat split;
    try reflexivity;
    apply list_eq; intros i; rewrite !list_lookup_fmap, list_lookup_alter;
    case_decide; subst; try reflexivity; now destruct (go_sql.pools h !! _).
Qed.

(** X10. Right after a successful [Open], [ReadTile] answers from the
    container at the path that was opened: what the point lookup scans,
    nil for [sql.ErrNoRows], and any other failure of the lookup as the
    error, with the caller's slice untouched. When the engine answers,
    that is the scanned payload of the first row of tiles at the
    coordinate (nil when that payload is NULL or has no bytes), and nil
    with a nil error when there is no such row. *)
Theorem Open_then_ReadTile detectTileFormat detectTileSize env path h db h1 z x y data :
  Open detectTileFormat detectTileSize env path h = ((Some db, None), h1) →
  ReadTile env h1 (Some db) z x y data
  = match go_sql.tile_at (disk env path) z x y with
    | inl payload => (payload, None)
    | inr ErrNoRows => (None, None)
    | inr e => (data, Some (SqlError e))
    end
  ∧ (go_sql.fault (disk env path) (go_sql.QTile z x y) = None →
     go_sql.has_relation (disk env path) "tiles" = true →
     ReadTile env h1 (Some db) z x y data
     = match List.find (go_sql.at_coordinate z x y) (go_sql.tiles (disk env path)) with
       | Some r => (go_sql.scan_bytes (go_sql.tile_data r), None)
       | None => (None, None)
       end).
Proof.
  intros (_ & _ & _ & _ & _ & Hstmt & _ & _ & ->)%Open_success.
  destruct (heap_after_Open_lookup path h) as [Hst Hps].
  assert (Hread : ReadTile env (heap_after_Open path h) (Some db) z x y data
                  = match go_sql.tile_at (disk env path) z x y with
                    | inl payload => (payload, None)
                    | inr ErrNoRows => (None, None)
                    | inr e => (data, Some (SqlError e))
                    end).
  { unfold ReadTile, go_sql.on_stmt, go_sql.on_pool. rewrite Hstmt.
    unfold go_sql.Stmt, go_sql.DB in *. rewrite Hst.
    cbn [go_sql.stmt_closed go_sql.stmt_pool]. now rewrite Hps. }
  split; [exact Hread|].
  intros Hf Hr. rewrite Hread, tile_at_answer by assumption.
  now destruct (List.find _ _).
Qed.

Lemma Open_then_ReadTile_witness :
  ReadTile (Sample.one_file (Sample.tileset []) false) Sample.opened_heap
    (Some Sample.opened) 9 4 5 None
  = (Some Sample.gzip_tile, None).
Proof.
  apply (Open_then_ReadTile FormatSniffer.detectTileFormat FormatSniffer.detectTileSize
           (Sample.one_file (Sample.tileset []) false) "foo.mbtiles"
           go_sql.empty_heap Sample.opened Sample.opened_heap 9 4 5 None eq_refl);
    reflexivity.
Defined.

(** ** The two format detections *)

(** X11. [getTileFormat] and [getTileFormatAndSize] classify alike: when
    the first fails the second fails with the same error, the format
    UNKNOWN and the size 0; when the first succeeds the second returns the
    same format, also when the detection of the size fails. *)
Theorem getTileFormat_agrees detectTileFormat detectTileSize env h con :
  match getTileFormat detectTileFormat env h con with
  | (_, Some e) =>
      getTileFormatAndSize detectTileFormat detectTileSize env h con = (UNKNOWN, 0, Some e)
  | (f, None) =>
      (getTileFormatAndSize detectTileFormat detectTileSize env h con).1.1 = f
  end.
Proof.
  unfold getTileFormat, getTileFormatAndSize.
  destruct (go_sql.on_pool _ _ _ _) as [tile|e]; [|reflexivity].
  destruct (detectTileFormat tile) as [f [e|]]; [reflexivity|].
  now destruct (detectTileSize _ tile) as [n [e|]].
Qed.

(** ** parseFloats *)

Lemma parseFloats_range_app ParseFloat str pre rest out vs :
  Forall2 (fun field v => ParseFloat (go_strings.TrimSpace field) = (v, None)) pre vs →
  parseFloats_range ParseFloat str (pre ++ rest)%list out
  = parseFloats_range ParseFloat str rest (out ++ vs)%list.
Proof.
  intros H. revert out. induction H as [|field v pre vs Hv _ IH]; intros out; simpl.
  - now rewrite app_nil_r.
  - rewrite Hv, IH. now rewrite <- app_assoc.
Qed.

(** X12. When a field does not parse, [parseFloats] returns the values of
    the fields before the first such field, and the error of that field
    wrapped with the whole string; the fields after it are not looked
    at. *)
Theorem parseFloats_first_error ParseFloat str pre field post vs v e :
  go_strings.Split str "," = (pre ++ field :: post)%list →
  Forall2 (fun f x => ParseFloat (go_strings.TrimSpace f) = (x, None)) pre vs →
  ParseFloat (go_strings.TrimSpace field) = (v, Some e) →
  parseFloats ParseFloat str = (vs, Some (BadFloats str e)).
Proof.
  intros Hsplit Hpre Hfield. unfold parseFloats.
  rewrite Hsplit, (parseFloats_range_app _ _ _ _ _ _ Hpre). simpl.
  now rewrite Hfield.
Qed.

Lemma parseFloats_first_error_witness :
  parseFloats Sample.ParseFloat "-1.5, x,10"
  = ([(-1.5)%float], Some (BadFloats "-1.5, x,10" (LibraryError "invalid syntax"))).
Proof.
  apply (parseFloats_first_error Sample.ParseFloat "-1.5, x,10" ["-1.5"] " x" ["10"]
           [(-1.5)%float] 0%float (LibraryError "invalid syntax"));
    [reflexivity | repeat constructor | reflexivity].
Defined.

Lemma Split_length (s : string) (sep : ascii) :
  length (go_strings.Split s sep)
  = S (count_occ ascii_dec (list_ascii_of_string s) sep).
Proof.
  induction s as [|c s IH]; simpl; [reflexivity|].
  destruct (Ascii.eqb_spec c sep) as [->|Hne].
  - simpl. rewrite IH. now destruct (ascii_dec sep sep).
  - destruct (ascii_dec c sep) as [Heq|_]; [contradiction|].
    destruct (go_strings.Split s sep); simpl in *; [discriminate | exact IH].
Qed.

(** X13. When [parseFloats] succeeds, it returns one value more than the
    string has commas: never an empty list. *)
Theorem parseFloats_length ParseFloat str vs :
  parseFloats ParseFloat str = (vs, None) →
  length vs = S (commas str).
Proof.
  unfold parseFloats. intros (vs' & -> & H)%parseFloats_range_inv. simpl.
  apply Forall2_length in H. rewrite <- H. apply Split_length.
Qed.

Lemma parseFloats_length_witness :
  length [(-1.5)%float; 2.25%float; 10%float; (-3)%float] = S (commas "-1.5, 2.25,10,-3").
Proof.
  apply (parseFloats_length Sample.ParseFloat "-1.5, 2.25,10,-3"). reflexivity.
Defined.

(** ** ReadMetadata *)

Lemma digits_nonnegative (s : string) (acc n : Z) :
  0 ≤ acc → go_strconv.digits s acc = Some n → 0 ≤ n.
Proof.
  revert acc. induction s as [|c s IH]; intros acc Hacc; simpl.
  - now intros [= <-].
  - unfold go_strconv.digit.
    destruct (_ && _) eqn:Hd; [|discriminate].
    apply andb_prop in Hd as [Hlo _]. apply Z.leb_le in Hlo.
    apply IH. lia.
Qed.

(** What [Atoi] returns without an error fits an int of 64 bits. *)
Lemma Atoi_range (s : string) (n : Z) :
  go_strconv.Atoi s = (n, None) → go_strconv.int_min ≤ n ≤ go_strconv.int_max.
Proof.
  unfold go_strconv.Atoi.
  match goal with
  | |- context [let '(neg, body) := ?m in _] => destruct m as [neg body]
  end.
  unfold go_strconv.unsigned.
  destruct body as [|c body]; [discriminate|].
  destruct (go_strconv.digits (String c body) 0) as [m|] eqn:Hm; [|discriminate].
  apply digits_nonnegative in Hm; [|lia].
  unfold go_strconv.int_min, go_strconv.int_max in *.
  destruct neg.
  - destruct (Z.leb_spec (- 2 ^ 63) (- m)); [|discriminate]. intros [= <-]. lia.
  - destruct (Z.leb_spec m (2 ^ 63 - 1)); [|discriminate]. intros [= <-]. lia.
Qed.

Lemma zoom_key_decided (k : string) :
  k ∈ ["maxzoom"; "minzoom"] → bool_decide (k ∈ ["maxzoom"; "minzoom"]) = true.
Proof. apply bool_decide_eq_true_2. Qed.

(** A row of minzoom or maxzoom that was scanned and is no integer ends
    the loop. *)
Lemma scan_rows_zoom ParseFloat Unmarshal rows key value metadata md k str :
  scan_rows ParseFloat Unmarshal rows key value metadata = Returns (inl md) →
  [Some k; Some str] ∈ rows → k ∈ ["maxzoom"; "minzoom"] →
  (go_strconv.Atoi str).2 = None.
Proof.
  intros Hloop Hin Hk. revert key value metadata Hloop.
  induction rows as [|r rows IH]; intros key value metadata; [inversion Hin|].
  simpl. apply elem_of_cons in Hin as [<-|Hin].
  - simpl. unfold switch_key. rewrite (zoom_key_decided _ Hk).
    destruct (go_strconv.Atoi str) as [n [e|]]; [|reflexivity].
    destruct (store metadata k (VInt n)); discriminate.
  - destruct (go_sql.Scan2 r key value) as [[k' v'] _].
    destruct (switch_key ParseFloat Unmarshal k' v' metadata) as [[md'|e']|why];
      [now apply IH|discriminate|discriminate].
Qed.

(** X14. When [ReadMetadata] returns a mapping and a nil error, every
    minzoom or maxzoom row of text that the query has yielded holds a
    decimal integer that fits an int: any other value makes the call
    fail. *)
Theorem ReadMetadata_zoom_rows_are_integers ParseFloat Unmarshal env h d p rows md
    key str :
  ReadMetadata ParseFloat Unmarshal env h (Some d) = Returns (md, None) →
  pool d = Some p →
  go_sql.on_pool (disk env) h p go_sql.metadata_rows = inl rows →
  [Some key; Some str] ∈ rows →
  key ∈ ["maxzoom"; "minzoom"] →
  ∃ n, go_strconv.Atoi str = (n, None)
       ∧ go_strconv.int_min ≤ n ≤ go_strconv.int_max.
Proof.
  intros Hread Hp Hrows Hrow Hkey. revert Hread.
  unfold ReadMetadata, getConnection. rewrite Hp, Hrows.
  destruct (scan_rows ParseFloat Unmarshal rows "" "" (Some ∅))
    as [[md'|e1]|why] eqn:Hloop; [|discriminate|discriminate].
  intros _. pose proof (scan_rows_zoom _ _ _ _ _ _ _ _ _ Hloop Hrow Hkey) as Hok.
  destruct (go_strconv.Atoi str) as [n err] eqn:HAtoi. simpl in Hok. subst err.
  exists n. split; [reflexivity|]. now apply Atoi_range in HAtoi.
Qed.

Lemma ReadMetadata_zoom_rows_are_integers_witness :
  ∃ n, go_strconv.Atoi "5" = (n, None)
       ∧ go_strconv.int_min ≤ n ≤ go_strconv.int_max.
Proof.
  apply (ReadMetadata_zoom_rows_are_integers Sample.ParseFloat Sample.Unmarshal
           (Sample.one_file (Sample.tileset [Sample.text_row "minzoom" "5"]) false)
           Sample.opened_heap Sample.opened 0%nat [[Some "minzoom"; Some "5"]]
           (Some (<["maxzoom" := VInt 9]>
                    (<["minzoom" := VInt 3]> (<["minzoom" := VInt 5]> ∅))))
           "minzoom" "5");
    try reflexivity; repeat constructor.
Defined.

Lemma switch_key_plain ParseFloat Unmarshal key value m :
  plain_key key = true →
  switch_key ParseFloat Unmarshal key value (Some m)
  = Returns (inl (Some (<[key := VString value]> m))).
Proof.
  unfold plain_key, switch_key.
  intros [[H1 H2]%andb_prop H3]%andb_prop.
  apply negb_true_iff in H1, H2, H3. now rewrite H1, H2, H3.
Qed.

(** X15. Rows of text whose keys have no case in the switch are stored as
    strings under their keys, and the last row of a key wins: the loop
    completes, a key holds the value of its last row, and the keys that
    no row names are as they were. *)
Theorem plain_rows_last_wins ParseFloat Unmarshal pairs key0 value0 m :
  Forall (fun kv => plain_key kv.1 = true) pairs →
  ∃ m',
    scan_rows ParseFloat Unmarshal (text_rows pairs) key0 value0 (Some m)
    = Returns (inl (Some m'))
    ∧ (∀ pre k v post,
         pairs = (pre ++ (k, v) :: post)%list → k ∉ map fst post →
         m' !! k = Some (VString v))
    ∧ (∀ k, k ∉ map fst pairs → m' !! k = m !! k).
Proof.
  intros Hplain. revert key0 value0 m.
  induction Hplain as [|[k1 v1] pairs Hk1 _ IH]; intros key0 value0 m.
  - exists m. split; [reflexivity|]. split; [|reflexivity].
    intros pre k v post Hnil. now destruct pre.
  - destruct (IH k1 v1 (<[k1 := VString v1]> m)) as (m' & Hloop & Hlast & Hother).
    exists m'. split; [|split].
    + simpl. now rewrite (switch_key_plain _ _ _ _ _ Hk1).
    + intros pre k v post Hpairs Hpost. destruct pre as [|x pre]; simpl in Hpairs.
      * injection Hpairs as -> -> <-. rewrite (Hother _ Hpost).
        apply lookup_insert_eq.
      * injection Hpairs as _ ->. now apply (Hlast pre k v post).
    + intros k Hk. simpl in Hk. apply not_elem_of_cons in Hk as [Hne Hk].
      rewrite (Hother _ Hk). now apply lookup_insert_ne.
Qed.

Lemma plain_rows_last_wins_witness :
  ∃ m',
    scan_rows Sample.ParseFloat Sample.Unmarshal
      (text_rows [("name", "a"); ("name", "b")]) "" "" (Some ∅)
    = Returns (inl (Some m'))
    ∧ (∀ pre k v post,
         [("name", "a"); ("name", "b")] = (pre ++ (k, v) :: post)%list →
         k ∉ map fst post → m' !! k = Some (VString v))
    ∧ (∀ k, k ∉ map fst [("name", "a"); ("name", "b")]
            → m' !! k = (∅ : gmap string value) !! k).
Proof.
  apply (plain_rows_last_wins Sample.ParseFloat Sample.Unmarshal
           [("name", "a"); ("name", "b")] "" "" ∅).
  repeat constructor.
Defined.

(** X16. When [json.Unmarshal] leaves the map nil with a nil error (as it
    does for the document null), the next assignment to the map panics:
    a following row with another key than json does, and so does the
    inference of the zoom levels when no row follows and the query of
    the zoom range succeeds. *)
Theorem ReadMetadata_nil_map_panics ParseFloat Unmarshal env h d p doc :
  pool d = Some p →
  Unmarshal doc (Some ∅) = (None, None) →
  (∀ key value rest,
     key ≠ "json" →
     go_sql.on_pool (disk env) h p go_sql.metadata_rows
     = inl ([Some "json"; Some doc] :: [Some key; Some value] :: rest) →
     ReadMetadata ParseFloat Unmarshal env h (Some d) = Panics nil_map_write)
  ∧ (∀ range,
       go_sql.on_pool (disk env) h p go_sql.metadata_rows = inl [[Some "json"; Some doc]] →
       go_sql.on_pool (disk env) h p go_sql.zoom_range = inl range →
       ReadMetadata ParseFloat Unmarshal env h (Some d) = Panics nil_map_write).
Proof.
  intros Hp Hnil.
  assert (Hjson : switch_key ParseFloat Unmarshal "json" doc (Some ∅) = Returns (inl None)).
  { unfold switch_key. simpl. now rewrite Hnil. }
  split.
  - intros key value rest Hkey Hrows.
    unfold ReadMetadata, getConnection. rewrite Hp, Hrows.
    cbn [scan_rows go_sql.Scan2]. rewrite Hjson.
    assert (switch_key ParseFloat Unmarshal key value None = Panics nil_map_write) as ->;
      [|reflexivity].
    unfold switch_key. apply String.eqb_neq in Hkey. rewrite Hkey.
    repeat case_bool_decide; simpl;
      repeat match goal with
             | |- context [let '(_, _) := ?x in _] => destruct x
             end; reflexivity.
  - intros [minZoom maxZoom] Hrows Hrange.
    unfold ReadMetadata, getConnection. rewrite Hp, Hrows.
    cbn [scan_rows go_sql.Scan2]. rewrite Hjson.
    unfold supplement. simpl. now rewrite Hrange.
Qed.

Lemma ReadMetadata_nil_map_panics_witness :
  ReadMetadata Sample.ParseFloat Sample.Unmarshal
    (Sample.one_file (Sample.tileset [Sample.text_row "json" "null"]) false)
    Sample.opened_heap (Some Sample.opened)
  = Panics nil_map_write.
Proof.
  apply (ReadMetadata_nil_map_panics Sample.ParseFloat Sample.Unmarshal
           (Sample.one_file (Sample.tileset [Sample.text_row "json" "null"]) false)
           Sample.opened_heap Sample.opened 0%nat "null" eq_refl eq_refl) with (range := (3, 9));
    reflexivity.
Defined.

(** X17. Over a table of tiles without rows nothing is inferred:
    [ReadMetadata] returns the mapping exactly as the rows of metadata
    gave it, with a nil error, so a zoom level that the table does not
    name is absent from the result. *)
Theorem ReadMetadata_without_tiles ParseFloat Unmarshal env h d p ps rows md :
  pool d = Some p →
  go_sql.pools h !! p = Some ps → go_sql.pool_closed ps = false →
  go_sql.metadata_rows (disk env (go_sql.pool_path ps)) = inl rows →
  scan_rows ParseFloat Unmarshal rows "" "" (Some ∅) = Returns (inl md) →
  go_sql.tiles (disk env (go_sql.pool_path ps)) = [] →
  ReadMetadata ParseFloat Unmarshal env h (Some d) = Returns (md, None).
Proof.
  intros Hp Hps Hc Hrows Hloop Hempty.
  unfold ReadMetadata, getConnection, go_sql.on_pool. rewrite Hp, Hps, Hc, Hrows, Hloop.
  unfold supplement, go_sql.on_pool. rewrite Hps, Hc.
  destruct (negb _); [|reflexivity].
  unfold go_sql.zoom_range, go_sql.answer. rewrite Hempty. simpl.
  destruct (go_sql.fault _ _); [reflexivity|].
  now destruct (go_sql.has_relation _ _).
Qed.

Lemma ReadMetadata_without_tiles_witness :
  ReadMetadata Sample.ParseFloat Sample.Unmarshal
    (Sample.one_file (MoreSamples.without_tiles [Sample.text_row "maxzoom" "7"]) false)
    Sample.opened_heap (Some Sample.opened)
  = Returns (Some {[ "maxzoom" := VInt 7 ]}, None).
Proof.
  apply (ReadMetadata_without_tiles Sample.ParseFloat Sample.Unmarshal
           (Sample.one_file (MoreSamples.without_tiles [Sample.text_row "maxzoom" "7"]) false)
           Sample.opened_heap Sample.opened 0%nat
           {| go_sql.pool_path := "foo.mbtiles"; go_sql.pool_closed := false |}
           [[Some "maxzoom"; Some "7"]]);
    reflexivity.
Defined.

(** X18. When a zoom level is missing from the decoded mapping and the
    table of tiles has rows, the two zoom levels that [ReadMetadata]
    returns are zoom levels of rows of tiles, the least and the
    greatest. *)
Theorem ReadMetadata_inferred_zoom_levels ParseFloat Unmarshal env h d p ps rows m :
  pool d = Some p →
  go_sql.pools h !! p = Some ps → go_sql.pool_closed ps = false →
  go_sql.metadata_rows (disk env (go_sql.pool_path ps)) = inl rows →
  scan_rows ParseFloat Unmarshal rows "" "" (Some ∅) = Returns (inl (Some m)) →
  has_key (Some m) "minzoom" && has_key (Some m) "maxzoom" = false →
  go_sql.fault (disk env (go_sql.pool_path ps)) go_sql.QZoomRange = None →
  go_sql.has_relation (disk env (go_sql.pool_path ps)) "tiles" = true →
  go_sql.tiles (disk env (go_sql.pool_path ps)) ≠ [] →
  ∃ m' lo hi,
    ReadMetadata ParseFloat Unmarshal env h (Some d) = Returns (Some m', None)
    ∧ m' !! "minzoom" = Some (VInt lo)
    ∧ m' !! "maxzoom" = Some (VInt hi)
    ∧ (∃ r, r ∈ go_sql.tiles (disk env (go_sql.pool_path ps)) ∧ go_sql.zoom_level r = lo)
    ∧ (∃ r, r ∈ go_sql.tiles (disk env (go_sql.pool_path ps)) ∧ go_sql.zoom_level r = hi)
    ∧ (∀ r, r ∈ go_sql.tiles (disk env (go_sql.pool_path ps)) →
            lo ≤ go_sql.zoom_level r ≤ hi).
Proof.
  intros Hp Hps Hc Hrows Hloop Hkeys Hfault Hrel Htiles.
  destruct (go_sql.zoom_range (disk env (go_sql.pool_path ps))) as [[lo hi]|e] eqn:Hrange.
  - destruct (zoom_range_extremes _ _ _ Hrange) as (Hlo & Hhi & Hall).
    exists (<["maxzoom" := VInt hi]> (<["minzoom" := VInt lo]> m)), lo, hi.
    repeat split; try assumption.
    + unfold ReadMetadata, getConnection, go_sql.on_pool.
      rewrite Hp, Hps, Hc, Hrows, Hloop.
      unfold supplement, go_sql.on_pool. now rewrite Hkeys, Hps, Hc, Hrange.
    + now rewrite lookup_insert_ne, lookup_insert_eq.
    + now rewrite lookup_insert_eq.
    + now apply Hall.
    + now apply Hall.
  - exfalso. revert Hrange. unfold go_sql.zoom_range, go_sql.answer.
    rewrite Hfault, Hrel.
    destruct (go_sql.tiles (disk env (go_sql.pool_path ps))); [contradiction|discriminate].
Qed.

Lemma ReadMetadata_inferred_zoom_levels_witness :
  ∃ m' lo hi,
    ReadMetadata Sample.ParseFloat Sample.Unmarshal
      (Sample.one_file (Sample.tileset [Sample.text_row "name" "x"]) false)
      Sample.opened_heap (Some Sample.opened)
    = Returns (Some m', None)
    ∧ m' !! "minzoom" = Some (VInt lo)
    ∧ m' !! "maxzoom" = Some (VInt hi)
    ∧ (∃ r, r ∈ [Sample.tile 3 1 2; Sample.tile 9 4 5] ∧ go_sql.zoom_level r = lo)
    ∧ (∃ r, r ∈ [Sample.tile 3 1 2; Sample.tile 9 4 5] ∧ go_sql.zoom_level r = hi)
    ∧ (∀ r, r ∈ [Sample.tile 3 1 2; Sample.tile 9 4 5] → lo ≤ go_sql.zoom_level r ≤ hi).
Proof.
  apply (ReadMetadata_inferred_zoom_levels Sample.ParseFloat Sample.Unmarshal
           (Sample.one_file (Sample.tileset [Sample.text_row "name" "x"]) false)
           Sample.opened_heap Sample.opened 0%nat
           {| go_sql.pool_path := "foo.mbtiles"; go_sql.pool_closed := false |}
           [[Some "name"; Some "x"]] {[ "name" := VString "x" ]});
    try reflexivity. discriminate.
Defined.

(** ** validateRequiredTables *)

Lemma filter_names_none (l : list go_sql.SchemaEntry) :
  Forall (fun e => go_sql.obj_name e ∉ ["tiles"; "metadata"]) l →
  filter (fun e => go_sql.obj_name e ∈ ["tiles"; "metadata"]) l = [].
Proof.
  induction 1 as [|e l He _ IH]; [reflexivity|].
  now rewrite filter_cons_False.
Qed.

(** X19. The validation passes as soon as two rows of [sqlite_master]
    carry one of the names tiles and metadata, whatever kind of object
    they describe: a tileset whose tiles are a view passes like one
    whose tiles are a table. *)
Theorem validateRequiredTables_two_names env h con ps l1 e1 l2 e2 l3 :
  go_sql.pools h !! con = Some ps → go_sql.pool_closed ps = false →
  go_sql.fault (disk env (go_sql.pool_path ps)) go_sql.QTableCount = None →
  go_sql.sqlite_master (disk env (go_sql.pool_path ps))
  = (l1 ++ e1 :: l2 ++ e2 :: l3)%list →
  go_sql.obj_name e1 ∈ ["tiles"; "metadata"] →
  go_sql.obj_name e2 ∈ ["tiles"; "metadata"] →
  validateRequiredTables env h con = None.
Proof.
  intros Hps Hc Hf Hmaster H1 H2.
  rewrite (validateRequiredTables_counts _ _ _ _ Hps Hc Hf), Hmaster.
  rewrite filter_app, filter_cons_True, filter_app, filter_cons_True by assumption.
  rewrite length_app. simpl. rewrite length_app. simpl.
  destruct (Nat.ltb_spec (length (filter (fun e => go_sql.obj_name e ∈ ["tiles"; "metadata"]) l1)
     + S (length (filter (fun e => go_sql.obj_name e ∈ ["tiles"; "metadata"]) l2)
          + S (length (filter (fun e => go_sql.obj_name e ∈ ["tiles"; "metadata"]) l3)))) 2);
    [lia|reflexivity].
Qed.

Lemma validateRequiredTables_two_names_witness :
  validateRequiredTables
    (Sample.one_file
       {| go_sql.sqlite_master :=
            [ {| go_sql.obj_type := go_sql.table; go_sql.obj_name := "map" |};
              {| go_sql.obj_type := go_sql.view; go_sql.obj_name := "tiles" |};
              {| go_sql.obj_type := go_sql.table; go_sql.obj_name := "metadata" |} ];
          go_sql.tiles := []; go_sql.metadata := []; go_sql.fault := Sample.no_fault |}
       false)
    Sample.opened_heap 0%nat
  = None.
Proof.
  apply (validateRequiredTables_two_names _ Sample.opened_heap 0%nat
           {| go_sql.pool_path := "foo.mbtiles"; go_sql.pool_closed := false |}
           [ {| go_sql.obj_type := go_sql.table; go_sql.obj_name := "map" |} ]
           {| go_sql.obj_type := go_sql.view; go_sql.obj_name := "tiles" |}
           []
           {| go_sql.obj_type := go_sql.table; go_sql.obj_name := "metadata" |}
           []); try reflexivity; simpl; repeat constructor.
Defined.

(** X20. The validation fails with the missing-tables error when at most
    one row of [sqlite_master] carries one of the two names: an empty
    schema, a schema of other objects, a tileset with tiles and without
    metadata and nothing else of that name. *)
Theorem validateRequiredTables_missing env h con ps l1 named l2 :
  go_sql.pools h !! con = Some ps → go_sql.pool_closed ps = false →
  go_sql.fault (disk env (go_sql.pool_path ps)) go_sql.QTableCount = None →
  go_sql.sqlite_master (disk env (go_sql.pool_path ps)) = (l1 ++ named ++ l2)%list →
  (length named ≤ 1)%nat →
  Forall (fun e => go_sql.obj_name e ∉ ["tiles"; "metadata"]) l1 →
  Forall (fun e => go_sql.obj_name e ∉ ["tiles"; "metadata"]) l2 →
  validateRequiredTables env h con = Some MissingTables.
Proof.
  intros Hps Hc Hf Hmaster Hlen Hl1 Hl2.
  rewrite (validateRequiredTables_counts _ _ _ _ Hps Hc Hf), Hmaster.
  rewrite !filter_app, (filter_names_none _ Hl1), (filter_names_none _ Hl2).
  rewrite app_nil_r. simpl.
  pose proof (length_filter (fun e => go_sql.obj_name e ∈ ["tiles"; "metadata"]) named).
  destruct (Nat.ltb_spec
    (length (filter (fun e => go_sql.obj_name e ∈ ["tiles"; "metadata"]) named)) 2);
    [reflexivity|lia].
Qed.

Lemma validateRequiredTables_missing_witness :
  validateRequiredTables
    (Sample.one_file
       {| go_sql.sqlite_master :=
            [ {| go_sql.obj_type := go_sql.table; go_sql.obj_name := "tiles" |};
              {| go_sql.obj_type := go_sql.index; go_sql.obj_name := "tile_index" |} ];
          go_sql.tiles := []; go_sql.metadata := []; go_sql.fault := Sample.no_fault |}
       false)
    Sample.opened_heap 0%nat
  = Some MissingTables.
Proof.
  apply (validateRequiredTables_missing _ Sample.opened_heap 0%nat
           {| go_sql.pool_path := "foo.mbtiles"; go_sql.pool_closed := false |}
           []
           [ {| go_sql.obj_type := go_sql.table; go_sql.obj_name := "tiles" |} ]
           [ {| go_sql.obj_type := go_sql.index; go_sql.obj_name := "tile_index" |} ]);
    try reflexivity; simpl; try lia; repeat constructor.
  intros H. repeat (apply elem_of_cons in H as [H|H]; [discriminate|]). inversion H.
Defined.

(** A json row that was scanned and whose document [json.Unmarshal]
    rejects ends the loop. *)
Lemma scan_rows_json ParseFloat Unmarshal rows key value metadata md doc :
  (∀ m, ∃ e, (Unmarshal doc m).2 = Some e) →
  [Some "json"; Some doc] ∈ rows →
  scan_rows ParseFloat Unmarshal rows key value metadata ≠ Returns (inl md).
Proof.
  intros Hdoc Hin. revert key value metadata.
  induction rows as [|r rows IH]; intros key value metadata; [inversion Hin|].
  simpl. apply elem_of_cons in Hin as [<-|Hin].
  - simpl. unfold switch_key. simpl.
    destruct (Hdoc metadata) as [e He].
    destruct (Unmarshal doc metadata) as [m' err]. simpl in He. subst err. discriminate.
  - destruct (go_sql.Scan2 r key value) as [[k' v'] _].
    destruct (switch_key ParseFloat Unmarshal k' v' metadata) as [[md'|e']|why];
      [now apply IH|discriminate|discriminate].
Qed.

(** X21. A json row of text whose document [json.Unmarshal] rejects is
    fatal: [ReadMetadata] does not return a mapping with a nil error,
    whatever the other rows hold. *)
Theorem ReadMetadata_json_is_fatal ParseFloat Unmarshal env h d p rows doc md :
  pool d = Some p →
  go_sql.on_pool (disk env) h p go_sql.metadata_rows = inl rows →
  [Some "json"; Some doc] ∈ rows →
  (∀ m, ∃ e, (Unmarshal doc m).2 = Some e) →
  ReadMetadata ParseFloat Unmarshal env h (Some d) ≠ Returns (md, None).
Proof.
  intros Hp Hrows Hrow Hdoc. unfold ReadMetadata, getConnection. rewrite Hp, Hrows.
  destruct (scan_rows ParseFloat Unmarshal rows "" "" (Some ∅))
    as [[md'|e1]|why] eqn:Hloop; [|discriminate|discriminate].
  now apply (scan_rows_json _ _ _ _ _ _ _ _ Hdoc Hrow) in Hloop.
Qed.

Lemma ReadMetadata_json_is_fatal_witness :
  ReadMetadata Sample.ParseFloat Sample.Unmarshal
    (Sample.one_file
       (Sample.tileset [Sample.text_row "name" "x"; Sample.text_row "json" "{"]) false)
    Sample.opened_heap (Some Sample.opened)
  ≠ Returns (Some ∅, None).
Proof.
  apply (ReadMetadata_json_is_fatal Sample.ParseFloat Sample.Unmarshal
           (Sample.one_file
              (Sample.tileset [Sample.text_row "name" "x"; Sample.text_row "json" "{"])
              false)
           Sample.opened_heap Sample.opened 0%nat
           [[Some "name"; Some "x"]; [Some "json"; Some "{"]] "{" (Some ∅));
    try reflexivity.
  - right. left.
  - intros m. eexists. reflexivity.
Defined.

(** ** A field of bounds or center that does not parse *)

(** C9. A row of bounds or center with a field that does not parse makes
    [ReadMetadata] return the error of the item when the row is the first
    of the table. When a json row before it has left the map nil (as the
    document null does), the value is assigned to the map before the
    error is looked at, and the call panics on the nil map: it returns no
    error. *)
Theorem failed_field_after_nil_map ParseFloat Unmarshal env h d p key str field v e :
  pool d = Some p →
  key ∈ ["bounds"; "center"] →
  field ∈ go_strings.Split str "," →
  ParseFloat (go_strings.TrimSpace field) = (v, Some e) →
  (∀ rest,
     go_sql.on_pool (disk env) h p go_sql.metadata_rows
     = inl ([Some key; Some str] :: rest) →
     ∃ e', ReadMetadata ParseFloat Unmarshal env h (Some d)
           = Returns (None, Some (BadMetadataItem key (BadFloats str e'))))
  ∧ (∀ doc rest,
       Unmarshal doc (Some ∅) = (None, None) →
       go_sql.on_pool (disk env) h p go_sql.metadata_rows
       = inl ([Some "json"; Some doc] :: [Some key; Some str] :: rest) →
       ReadMetadata ParseFloat Unmarshal env h (Some d) = Panics nil_map_write).
Proof.
  intros Hp Hkey Hin Hv.
  destruct (parseFloats_range_failed ParseFloat str _ [] _ _ _ Hin Hv)
    as (out & e' & Hfail).
  fold (parseFloats ParseFloat str) in Hfail.
  assert (Hswitch : ∀ metadata,
            switch_key ParseFloat Unmarshal key str metadata
            = match store metadata key (VFloat64s out) with
              | Panics why => Panics why
              | Returns _ => Returns (inr (BadMetadataItem key (BadFloats str e')))
              end).
  { intros metadata. unfold switch_key.
    rewrite (floats_key_not_zoom _ Hkey), bool_decide_eq_true_2 by assumption.
    now rewrite Hfail. }
  split.
  - intros rest Hrows. exists e'. unfold ReadMetadata, getConnection.
    rewrite Hp, Hrows. cbn [scan_rows go_sql.Scan2]. now rewrite Hswitch.
  - intros doc rest Hnil Hrows. unfold ReadMetadata, getConnection.
    rewrite Hp, Hrows. cbn [scan_rows go_sql.Scan2].
    assert (switch_key ParseFloat Unmarshal "json" doc (Some ∅) = Returns (inl None)) as ->.
    { unfold switch_key. simpl. now rewrite Hnil. }
    now rewrite Hswitch.
Qed.

Lemma failed_field_after_nil_map_witness :
  ReadMetadata Sample.ParseFloat Sample.Unmarshal
    (Sample.one_file
       (Sample.tileset [Sample.text_row "json" "null"; Sample.text_row "bounds" "1,x"])
       false)
    Sample.opened_heap (Some Sample.opened)
  = Panics nil_map_write.
Proof.
  apply (failed_field_after_nil_map Sample.ParseFloat Sample.Unmarshal
           (Sample.one_file
              (Sample.tileset
                 [Sample.text_row "json" "null"; Sample.text_row "bounds" "1,x"])
              false)
           Sample.opened_heap Sample.opened 0%nat "bounds" "1,x" "x" 0%float
           (LibraryError "invalid syntax") eq_refl)
    with (doc := "null") (rest := []);
    try reflexivity; repeat constructor.
Defined.

(** ** Decoding bounds and center in ReadMetadata *)

Lemma scan_rows_app ParseFloat Unmarshal pre rest key value metadata md :
  scan_rows ParseFloat Unmarshal (pre ++ rest)%list key value metadata = Returns (inl md) →
  ∃ key' value' metadata',
    scan_rows ParseFloat Unmarshal pre key value metadata = Returns (inl metadata')
    ∧ scan_rows ParseFloat Unmarshal rest key' value' metadata' = Returns (inl md).
Proof.
  revert key value metadata. induction pre as [|r pre IH]; intros key value metadata; simpl.
  - intros H. now exists key, value, metadata.
  - destruct (go_sql.Scan2 r key value) as [[k1 v1] _].
    destruct (switch_key ParseFloat Unmarshal k1 v1 metadata) as [[md1|e1]|why];
      [apply IH|discriminate|discriminate].
Qed.

(** A row of text with another key, json apart, leaves the entry of a key
    as it is and the map allocated. *)
Lemma switch_key_other ParseFloat Unmarshal key k v m md :
  k ≠ key → k ≠ "json" →
  switch_key ParseFloat Unmarshal k v (Some m) = Returns (inl md) →
  ∃ m', md = Some m' ∧ m' !! key = m !! key.
Proof.
  intros Hk Hjson. apply String.eqb_neq in Hjson. unfold switch_key. rewrite Hjson.
  repeat case_bool_decide; simpl;
    repeat match goal with
           | |- context [let '(_, _) := ?x in _] => destruct x as [? [?|]]
           end; intros [= <-]; eexists; (split; [reflexivity|]);
    now apply lookup_insert_ne.
Qed.

Lemma scan_rows_other ParseFloat Unmarshal key post k0 v0 m md :
  Forall (fun kv => kv.1 ≠ key ∧ kv.1 ≠ "json") post →
  scan_rows ParseFloat Unmarshal (text_rows post) k0 v0 (Some m) = Returns (inl md) →
  ∃ m', md = Some m' ∧ m' !! key = m !! key.
Proof.
  intros Hpost. revert k0 v0 m.
  induction Hpost as [|[k v] post [Hk Hjson] _ IH]; intros k0 v0 m; simpl.
  - intros [= <-]. eauto.
  - simpl in Hk, Hjson.
    destruct (switch_key ParseFloat Unmarshal k v (Some m)) as [[md1|e1]|why] eqn:Hsw;
      [|discriminate|discriminate].
    destruct (switch_key_other _ _ key _ _ _ _ Hk Hjson Hsw) as (m1 & -> & Hm1).
    intros (m' & -> & Hm')%IH. exists m'. split; [reflexivity|]. congruence.
Qed.

(** X22. When [ReadMetadata] returns a mapping with a nil error, a row of
    text with the key bounds or center that is followed only by rows of
    text with other keys, json apart, is in the mapping as a list of
    floats: the values of the comma-separated fields of the row, each
    trimmed of white space and parsed, in the order of the fields. *)
Theorem ReadMetadata_decodes_floats ParseFloat Unmarshal env h d p pre key str post md :
  pool d = Some p →
  go_sql.on_pool (disk env) h p go_sql.metadata_rows
  = inl (pre ++ [Some key; Some str] :: text_rows post)%list →
  key ∈ ["bounds"; "center"] →
  Forall (fun kv => kv.1 ≠ key ∧ kv.1 ≠ "json") post →
  ReadMetadata ParseFloat Unmarshal env h (Some d) = Returns (md, None) →
  ∃ m vs,
    md = Some m
    ∧ m !! key = Some (VFloat64s vs)
    ∧ Forall2 (fun field x => ParseFloat (go_strings.TrimSpace field) = (x, None))
        (go_strings.Split str ",") vs.
Proof.
  intros Hp Hrows Hkey Hpost. unfold ReadMetadata, getConnection. rewrite Hp, Hrows.
  destruct (scan_rows ParseFloat Unmarshal _ "" "" (Some ∅)) as [[mdf|e1]|why] eqn:Hloop;
    [|discriminate|discriminate].
  apply scan_rows_app in Hloop as (k' & v' & md' & _ & Hrest).
  cbn [scan_rows go_sql.Scan2] in Hrest. unfold switch_key in Hrest.
  rewrite (floats_key_not_zoom _ Hkey), bool_decide_eq_true_2 in Hrest by assumption.
  destruct (parseFloats ParseFloat str) as [out [e|]] eqn:Hparse;
    destruct md' as [m1|]; simpl in Hrest; try discriminate.
  apply (scan_rows_other _ _ key _ _ _ _ _ Hpost) in Hrest as (m3 & -> & Hm3).
  rewrite lookup_insert_eq in Hm3.
  unfold parseFloats in Hparse. apply parseFloats_range_inv in Hparse as (vs & -> & Hvs).
  assert (Hzoom : key ≠ "minzoom" ∧ key ≠ "maxzoom").
  { apply elem_of_cons in Hkey as [->|Hkey];
      [|apply list_elem_of_singleton in Hkey as ->]; now split. }
  destruct Hzoom as [Hmin Hmax].
  unfold supplement. destruct (negb _).
  - destruct (go_sql.on_pool _ _ _ go_sql.zoom_range) as [[lo hi]|e].
    + simpl. intros [= <-]. eexists _, vs. split; [reflexivity|]. split; [|exact Hvs].
      now rewrite !lookup_insert_ne by congruence.
    + intros [= <-]. now exists m3, vs.
  - intros [= <-]. now exists m3, vs.
Qed.

Lemma ReadMetadata_decodes_floats_witness :
  ∃ m vs,
    Some (<["maxzoom" := VInt 9]>
            (<["minzoom" := VInt 3]>
               (<["name" := VString "x"]>
                  ({[ "bounds" := VFloat64s [(-1.5)%float; 2.25%float; 10%float; (-3)%float] ]}
                   : gmap string value))))
    = Some m
    ∧ m !! "bounds" = Some (VFloat64s vs)
    ∧ Forall2 (fun field x => Sample.ParseFloat (go_strings.TrimSpace field) = (x, None))
        (go_strings.Split "-1.5, 2.25,10,-3" ",") vs.
Proof.
  apply (ReadMetadata_decodes_floats Sample.ParseFloat Sample.Unmarshal
           (Sample.one_file
              (Sample.tileset [Sample.text_row "bounds" "-1.5, 2.25,10,-3";
                               Sample.text_row "name" "x"]) false)
           Sample.opened_heap Sample.opened 0%nat [] "bounds" "-1.5, 2.25,10,-3"
           [("name", "x")]);
    try reflexivity; repeat constructor; discriminate.
Defined.

(** A tile whose payload is a blob of length zero is read as the nil
    slice with a nil error, like a tile that is not there. *)
Lemma ReadTile_empty_blob (data : slice) :
  ReadTile
    (Sample.one_file
       {| go_sql.sqlite_master := Sample.standard_schema;
          go_sql.tiles := [ {| go_sql.zoom_level := 0; go_sql.tile_column := 0;
                               go_sql.tile_row := 0; go_sql.tile_data := Some [] |} ];
          go_sql.metadata := [];
          go_sql.fault := Sample.no_fault |} false)
    Sample.opened_heap (Some Sample.opened) 0 0 0 data
  = (None, None).
Proof. reflexivity. Qed.
